(** * PPE detection service: model of the detection server and its client

    The development embeds the Express server (the [/api/detect] handler,
    [processPersonImage], [getStatus], [cleanupFiles], the periodic sweep)
    and the parts of the browser client that talk to it
    ([validateImageFile], [createFormData], [processDetectionResults]).

    Conventions.
    - A JavaScript number is a [JS.number]: [NaN], an infinity, or a finite
      value given by the rational it denotes.  Comparisons, [Math.round] and
      [Math.floor] are exact on these values; the sign of zero is not
      tracked.  Results of multiplications and of [parseFloat] are rounded to
      binary64 by [JS.b64].
    - The file system is a finite map from paths to modification times; the
      outcomes of the external collaborators (image decoding, the detection
      service, the uuid generator, the completion order of the per-person
      promises) are fields of a [World] record, so every theorem that
      quantifies over a world covers every behaviour of the collaborators. *)

From Stdlib Require Import QArith Qround Qabs ZArith Lia Ascii String.
From stdpp Require Import base option list strings gmap pretty.

Local Open Scope Z_scope.

(** ** JavaScript numbers *)

Module JS.

Inductive number : Type :=
  | NaN
  | Inf (negative : bool)
  | Fin (q : Q).

Definition of_Z (z : Z) : number := Fin (inject_Z z).

(** [a < b] *)
Definition lt (a b : number) : bool :=
  match a, b with
  | NaN, _ | _, NaN => false
  | Fin x, Fin y => negb (Qle_bool y x)
  | Inf true, Inf true => false
  | Inf true, _ => true
  | Fin _, Inf negative => negb negative
  | Inf false, _ => false
  end.

(** [a <= b] *)
Definition le (a b : number) : bool :=
  match a, b with
  | NaN, _ | _, NaN => false
  | Fin x, Fin y => Qle_bool x y
  | Inf true, _ => true
  | Fin _, Inf negative => negb negative
  | Inf false, Inf false => true
  | Inf false, _ => false
  end.

(** [a > b] and [a >= b] *)
Definition gt (a b : number) : bool := lt b a.
Definition ge (a b : number) : bool := le b a.

(** [Math.round]: the nearest integer, ties towards plus infinity. *)
Definition Math_round (x : number) : number :=
  match x with
  | Fin q => of_Z (Qfloor (q + (1 # 2)))
  | _ => x
  end.

(** [Math.floor] *)
Definition Math_floor (x : number) : number :=
  match x with
  | Fin q => of_Z (Qfloor q)
  | _ => x
  end.

(** Truthiness of a number, as used by [||]: [NaN] and zero are falsy. *)
Definition truthy (x : number) : bool :=
  match x with
  | NaN => false
  | Inf _ => true
  | Fin q => negb (Qeq_bool q 0)
  end.

(** [a || b] on numbers *)
Definition or_else (a b : number) : number := if truthy a then a else b.

(** *** Rounding to binary64 (round to nearest, ties to even) *)

Definition pow2 (e : Z) : Q :=
  if 0 <=? e then inject_Z (2 ^ e) else 1 # Z.to_pos (2 ^ (- e)).

(** [floor (log2 q)] for positive [q] *)
Definition ilog2 (q : Q) : Z :=
  let e := Z.log2 (Qnum q) - Z.log2 (Zpos (Qden q)) in
  if Qle_bool (pow2 e) q then e else e - 1.

Definition round_half_even (q : Q) : Z :=
  let f := Qfloor q in
  match (q - inject_Z f ?= 1 # 2)%Q with
  | Lt => f
  | Gt => f + 1
  | Eq => if Z.even f then f else f + 1
  end.

Definition b64 (q : Q) : number :=
  if Qeq_bool q 0 then Fin 0
  else
    let a := Qabs q in
    let e := Z.max (ilog2 a) (-1022) in
    let ulp := pow2 (e - 52) in
    let v := Qred (inject_Z (round_half_even (a / ulp)) * ulp) in
    if Qle_bool (pow2 1024) v then Inf (negb (Qle_bool 0 q))
    else Fin (if Qle_bool 0 q then v else Qred (- v)).

(** [a * b] *)
Definition mul (a b : number) : number :=
  match a, b with
  | NaN, _ | _, NaN => NaN
  | Fin x, Fin y => b64 (x * y)
  | Inf s, Fin y => if Qeq_bool y 0 then NaN else Inf (xorb s (negb (Qle_bool 0 y)))
  | Fin x, Inf s => if Qeq_bool x 0 then NaN else Inf (xorb s (negb (Qle_bool 0 x)))
  | Inf s, Inf s' => Inf (xorb s s')
  end.

End JS.

(** ** Detection status *)

Inductive DetectionStatus : Type :=
  | Detected
  | Indeterminate
  | NotDetected
  | NotSupported.

#[global] Instance DetectionStatus_eq_dec : EqDecision DetectionStatus.
Proof. solve_decision. Defined.

(** [processPersonImage], the status of one equipment detection:
<<
  const confidence = Math.round(equipment.Confidence);
  let status = "Not Detected";
  if (confidence >= confidenceThreshold) status = "Detected";
  else if (confidence > 0) status = "Indeterminate";
>> *)
Definition equipmentStatus (Confidence confidenceThreshold : JS.number)
  : DetectionStatus :=
  let confidence := JS.Math_round Confidence in
  if JS.ge confidence confidenceThreshold then Detected
  else if JS.gt confidence (JS.of_Z 0) then Indeterminate
  else NotDetected.

(** ** The detection service's response, as the server reads it *)

Inductive EquipmentType : Type := FACE_COVER | HAND_COVER | HEAD_COVER.

#[global] Instance EquipmentType_eq_dec : EqDecision EquipmentType.
Proof. solve_decision. Defined.

Inductive BodyPartName : Type := FACE | HEAD | LEFT_HAND | RIGHT_HAND.

#[global] Instance BodyPartName_eq_dec : EqDecision BodyPartName.
Proof. solve_decision. Defined.

(** The region on which the service anchors each equipment type. *)
Definition regionOf (type : EquipmentType) (name : BodyPartName) : bool :=
  match type, name with
  | FACE_COVER, FACE | HEAD_COVER, HEAD
  | HAND_COVER, LEFT_HAND | HAND_COVER, RIGHT_HAND => true
  | _, _ => false
  end.

Record BoundingBox : Type := {
  Left : JS.number;
  Top : JS.number;
  Width : JS.number;
  Height : JS.number
}.

(** A [Confidence] that the response leaves out reads as [undefined], which
    [Math.round] turns into [NaN]; it is stored as [JS.NaN] here. *)
Record EquipmentDetection : Type := {
  eq_Type : EquipmentType;
  eq_Confidence : JS.number;
  eq_BoundingBox : option BoundingBox
}.

Record BodyPart : Type := {
  bp_Name : BodyPartName;
  bp_Confidence : JS.number;
  EquipmentDetections : list EquipmentDetection
}.

Record Person : Type := {
  Id : Z;
  p_Confidence : JS.number;
  p_BoundingBox : BoundingBox;
  BodyParts : option (list BodyPart)
}.

Record ImageMetadata : Type := {
  width : Z;
  height : Z;
  format : string
}.

(** ** Result assembler *)

Record StatusRecord : Type := {
  status : DetectionStatus;
  confidence : JS.number
}.

(** [getStatus], a closure over [bodyParts = person.BodyParts || []]:
<<
  const part = bodyParts.find((p) =>
    p.EquipmentDetections.some((eq) => eq.Type === type));
  const detection =
    part && part.EquipmentDetections.find((eq) => eq.Type === type);
  return detection
    ? { status: "Detected", confidence: Math.round(detection.Confidence) }
    : { status: "Not Detected",
        confidence: part ? Math.round(part.Confidence) : 0 };
>> *)
Definition hasType (type : EquipmentType) (eq : EquipmentDetection) : bool :=
  bool_decide (eq_Type eq = type).

Definition getStatus (bodyParts : list BodyPart) (type : EquipmentType)
  : StatusRecord :=
  let part :=
    List.find (fun p => existsb (hasType type) (EquipmentDetections p))
      bodyParts in
  let detection :=
    match part with
    | Some p => List.find (hasType type) (EquipmentDetections p)
    | None => None
    end in
  match detection with
  | Some d =>
      {| status := Detected; confidence := JS.Math_round (eq_Confidence d) |}
  | None =>
      {| status := NotDetected;
         confidence :=
           match part with
           | Some p => JS.Math_round (bp_Confidence p)
           | None => JS.of_Z 0
           end |}
  end.

Record ResultBox : Type := {
  x : JS.number;
  y : JS.number;
  rb_width : JS.number;
  rb_height : JS.number
}.

Record PersonResult : Type := {
  personId : Z;
  pr_confidence : JS.number;
  image : string;
  boundingBox : ResultBox;
  hardHat : StatusRecord;
  faceMask : StatusRecord;
  handProtectionL : StatusRecord;
  handProtectionR : StatusRecord;
  safetyVest : StatusRecord;
  boots : StatusRecord
}.

(** The record built by the callback of [data.Persons.map], once
    [processPersonImage] has produced [processedImageUrl]. *)
Definition personResult (idx : nat) (person : Person)
    (processedImageUrl : string) : PersonResult :=
  let bodyParts := default [] (BodyParts person) in
  {| personId := Z.of_nat idx + 1;
     pr_confidence := JS.Math_round (p_Confidence person);
     image := processedImageUrl;
     boundingBox :=
       {| x := Left (p_BoundingBox person);
          y := Top (p_BoundingBox person);
          rb_width := Width (p_BoundingBox person);
          rb_height := Height (p_BoundingBox person) |};
     hardHat := getStatus bodyParts HEAD_COVER;
     faceMask := getStatus bodyParts FACE_COVER;
     handProtectionL := getStatus bodyParts HAND_COVER;
     handProtectionR := getStatus bodyParts HAND_COVER;
     safetyVest := {| status := NotSupported; confidence := JS.of_Z 0 |};
     boots := {| status := NotSupported; confidence := JS.of_Z 0 |} |}.

(** ** Geometry *)

Record Rect : Type := {
  r_x : JS.number;
  r_y : JS.number;
  r_w : JS.number;
  r_h : JS.number
}.

(** [processPersonImage]: the region cropped for a person
<<
  const cropX = Math.floor(person.BoundingBox.Left * imgWidth);
  const cropY = Math.floor(person.BoundingBox.Top * imgHeight);
  const cropWidth = Math.floor(person.BoundingBox.Width * imgWidth);
  const cropHeight = Math.floor(person.BoundingBox.Height * imgHeight);
>> *)
Definition cropRect (box : BoundingBox) (md : ImageMetadata) : Rect :=
  let imgWidth := JS.of_Z (width md) in
  let imgHeight := JS.of_Z (height md) in
  {| r_x := JS.Math_floor (JS.mul (Left box) imgWidth);
     r_y := JS.Math_floor (JS.mul (Top box) imgHeight);
     r_w := JS.Math_floor (JS.mul (Width box) imgWidth);
     r_h := JS.Math_floor (JS.mul (Height box) imgHeight) |}.

(** [processPersonImage]: the rectangle drawn for an equipment detection
<<
  const eqX = equipment.BoundingBox.Left * imgWidth;
  const eqY = equipment.BoundingBox.Top * imgHeight;
  const eqWidth = equipment.BoundingBox.Width * imgWidth;
  const eqHeight = equipment.BoundingBox.Height * imgHeight;
>> *)
Definition equipmentRect (box : BoundingBox) (md : ImageMetadata) : Rect :=
  let imgWidth := JS.of_Z (width md) in
  let imgHeight := JS.of_Z (height md) in
  {| r_x := JS.mul (Left box) imgWidth;
     r_y := JS.mul (Top box) imgHeight;
     r_w := JS.mul (Width box) imgWidth;
     r_h := JS.mul (Height box) imgHeight |}.

(** ** Annotation renderer: the rectangles painted on the full image *)

Record Drawn : Type := {
  d_color : string;
  d_rect : Rect
}.

Definition drawEquipment (md : ImageMetadata) (confidenceThreshold : JS.number)
    (equipment : EquipmentDetection) : list Drawn :=
  match eq_BoundingBox equipment with
  | None => []
  | Some box =>
      match equipmentStatus (eq_Confidence equipment) confidenceThreshold with
      | Detected =>
          [ {| d_color := "#00FF00"; d_rect := equipmentRect box md |} ]
      | Indeterminate =>
          [ {| d_color := "#FFFF00"; d_rect := equipmentRect box md |} ]
      | _ => []
      end
  end.

Definition drawPerson (md : ImageMetadata) (confidenceThreshold : JS.number)
    (person : Person) : list Drawn :=
  match BodyParts person with
  | None => []
  | Some parts =>
      flat_map
        (fun bodyPart =>
           flat_map (drawEquipment md confidenceThreshold)
             (EquipmentDetections bodyPart))
        parts
  end.

(** ** Client: threshold re-classification of the returned records

    [processDetectionResults]:
<<
  if (item.confidence < threshold && item.status === "Detected")
    item.status = "Indeterminate";
>> *)
Definition reclassifyItem (threshold : JS.number) (item : StatusRecord)
  : StatusRecord :=
  if JS.lt (confidence item) threshold && bool_decide (status item = Detected)
  then {| status := Indeterminate; confidence := confidence item |}
  else item.

Definition processDetectionResult (threshold : JS.number) (r : PersonResult)
  : PersonResult :=
  {| personId := personId r;
     pr_confidence := pr_confidence r;
     image := image r;
     boundingBox := boundingBox r;
     hardHat := reclassifyItem threshold (hardHat r);
     faceMask := reclassifyItem threshold (faceMask r);
     handProtectionL := reclassifyItem threshold (handProtectionL r);
     handProtectionR := reclassifyItem threshold (handProtectionR r);
     safetyVest := safetyVest r;
     boots := boots r |}.

Definition processDetectionResults (results : list PersonResult)
    (threshold : JS.number) : list PersonResult :=
  map (processDetectionResult threshold) results.

(** ** Server state, effects and exceptions *)

Inductive Exn : Type :=
  | TypeError                     (* property read on [undefined] *)
  | ENOENT (path : string)        (* a file-system call on a missing file *)
  | External (message : string).  (* an error raised by a collaborator *)

Inductive Response : Type :=
  | Success (results : list PersonResult) (image_metadata : ImageMetadata)
  | Failure (code : Z) (error : string) (cause : Exn).

Inductive Event : Type :=
  | CallRekognition (MinConfidence : JS.number)
  | Unlink (path : string)
  | WriteFile (path : string)
  | Respond (r : Response)
  | SetTimeout (ms : Z) (paths : list string)
  | ConsoleLog (msg : string)
  | ConsoleError (msg : string).

(** [files] maps the path of every regular file to its modification time,
    [uuids] counts the identifiers drawn so far and [trace] lists the
    observable effects, oldest first. *)
Record State : Type := {
  files : gmap string Z;
  uuids : nat;
  trace : list Event
}.

Inductive Result (A : Type) : Type :=
  | Ok (a : A)
  | Throw (e : Exn)
  | Hang.                         (* an awaited promise never settles *)
Arguments Ok {A} a.
Arguments Throw {A} e.
Arguments Hang {A}.

Definition M (A : Type) : Type := State -> Result A * State.

Definition ret {A} (a : A) : M A := fun st => (Ok a, st).

Definition bind {A B} (m : M A) (k : A -> M B) : M B :=
  fun st =>
    match m st with
    | (Ok a, st') => k a st'
    | (Throw e, st') => (Throw e, st')
    | (Hang, st') => (Hang, st')
    end.

Definition throw {A} (e : Exn) : M A := fun st => (Throw e, st).

Definition hang {A} : M A := fun st => (Hang, st).

(** [try { m } catch (e) { h e }] *)
Definition try_catch {A} (m : M A) (h : Exn -> M A) : M A :=
  fun st =>
    match m st with
    | (Throw e, st') => h e st'
    | r => r
    end.

Notation "'let*' x ':=' m 'in' k" := (bind m (fun x => k))
  (at level 10, x name, m at level 100, k at level 200).
Notation "m >>> k" := (bind m (fun _ => k))
  (at level 90, right associativity).

Definition emit (e : Event) : M unit :=
  fun st =>
    (Ok tt,
     {| files := files st; uuids := uuids st; trace := trace st ++ [e] |}).

Definition lift_result {A} (r : Exn + A) : M A :=
  match r with
  | inl e => throw e
  | inr a => ret a
  end.

(** *** File-system calls *)

Definition existsSync (p : string) : M bool :=
  fun st => (Ok (bool_decide (is_Some (files st !! p))), st).

Definition unlinkSync (p : string) : M unit :=
  fun st =>
    match files st !! p with
    | Some _ =>
        (Ok tt,
         {| files := delete p (files st); uuids := uuids st;
            trace := trace st ++ [Unlink p] |})
    | None => (Throw (ENOENT p), st)
    end.

Definition statSync (p : string) : M Z :=
  fun st =>
    match files st !! p with
    | Some mtime => (Ok mtime, st)
    | None => (Throw (ENOENT p), st)
    end.

Definition readFileSync (p : string) : M unit :=
  fun st =>
    match files st !! p with
    | Some _ => (Ok tt, st)
    | None => (Throw (ENOENT p), st)
    end.

Definition path_join (dir file : string) : string := dir +:+ "/" +:+ file.

(** ** The collaborators *)

Record World : Type := {
  serverUrl : string;
  processedImagesDir : string;
  (** [sharp(path).metadata()] *)
  sharp_metadata : string -> Exn + ImageMetadata;
  (** [rekognitionClient.send(command)] for the image at a path and a
      [MinConfidence]; the answer is [data.Persons] *)
  rekognition_send : string -> JS.number -> Exn + option (list Person);
  (** whether [loadImage] decodes the file at a path *)
  loadImage : string -> bool;
  (** whether [sharp(buffer).extract(region)] accepts a region *)
  sharp_extract : ImageMetadata -> Rect -> bool;
  (** whether [fs.writeFileSync] can write a path *)
  writable : string -> bool;
  (** the successive values of [uuidv4()] *)
  uuidv4 : nat -> string;
  (** the order in which the per-person promises settle *)
  completion : list nat;
  (** the clock, for modification times *)
  now : Z
}.

Definition writeFileSync (w : World) (p : string) : M unit :=
  fun st =>
    if writable w p then
      (Ok tt,
       {| files := <[p := now w]> (files st); uuids := uuids st;
          trace := trace st ++ [WriteFile p] |})
    else (Throw (External "write failed"), st).

Definition next_uuid (w : World) : M string :=
  fun st =>
    (Ok (uuidv4 w (uuids st)),
     {| files := files st; uuids := S (uuids st); trace := trace st |}).

Definition guard (ok : bool) (msg : string) : M unit :=
  if ok then ret tt else throw (External msg).

(** ** [processPersonImage] *)

Definition placeholderUrl (w : World) (person : Person) : string :=
  serverUrl w +:+ "/placeholder.svg?height=120&width=120&text=Person+"
    +:+ pretty (Id person).

Definition personFileName (person : Person) (uuid : string) : string :=
  "person_" +:+ pretty (Id person) +:+ "_" +:+ uuid +:+ ".png".

Definition personFilePath (w : World) (person : Person) (uuid : string)
  : string :=
  path_join (processedImagesDir w) (personFileName person uuid).

Definition generatedUrl (w : World) (person : Person) (uuid : string)
  : string :=
  serverUrl w +:+ "/processed-images/" +:+ personFileName person uuid.

(** [await loadImage(path)] followed by the drawing of the rectangles: the
    file has to be there and to decode; the value is the list of rectangles
    painted over the image. *)
Definition loadAndDraw (w : World) (originalImagePath : string)
    (drawn : list Drawn) : M (list Drawn) :=
  readFileSync originalImagePath >>>
  guard (loadImage w originalImagePath) "loadImage" >>>
  ret drawn.

(** [await sharp(fullImageBuffer).extract(region).png().toBuffer()] *)
Definition extract (w : World) (imageMetadata : ImageMetadata) (region : Rect)
  : M unit :=
  guard (sharp_extract w imageMetadata region) "extract".

(** [processPersonImage]: everything runs inside [try], and the [catch]
    returns the placeholder. *)
Definition processPersonImage (w : World) (originalImagePath : string)
    (person : Person) (imageMetadata : ImageMetadata)
    (generatedFiles : list string) (confidenceThreshold : JS.number)
  : M (string * list string) :=
  try_catch
    (let crop := cropRect (p_BoundingBox person) imageMetadata in
     let* fullCanvas :=
       loadAndDraw w originalImagePath
         (drawPerson imageMetadata confidenceThreshold person) in
     extract w imageMetadata crop >>>
     let* uuid := next_uuid w in
     let filePath := personFilePath w person uuid in
     writeFileSync w filePath >>>
     ret (generatedUrl w person uuid, generatedFiles ++ [filePath]))
    (fun error =>
       emit (ConsoleError "Error processing person image:") >>>
       ret (placeholderUrl w person, generatedFiles)).

(** ** [cleanupFiles] *)

Definition cleanupFile (filePath : string) : M unit :=
  try_catch
    (let* present := existsSync filePath in
     if present then
       unlinkSync filePath >>>
       emit (ConsoleLog ("Cleaned up file: " +:+ filePath))
     else ret tt)
    (fun error =>
       emit (ConsoleError ("Error cleaning up file " +:+ filePath))).

Fixpoint forEach {A} (f : A -> M unit) (l : list A) : M unit :=
  match l with
  | [] => ret tt
  | a :: l' => f a >>> forEach f l'
  end.

Definition cleanupFiles (filePaths : list string) : M unit :=
  forEach cleanupFile filePaths.

(** ** [parseFloat] on strings

    The longest prefix of the trimmed input that is a decimal literal
    (sign, [Infinity], digits, fraction, exponent), rounded to binary64;
    [NaN] when there is none. *)

Definition is_space (c : ascii) : bool :=
  let n := N_of_ascii c in
  ((9 <=? n) && (n <=? 13) || (n =? 32))%N.

Fixpoint trimStart (s : string) : string :=
  match s with
  | String c s' => if is_space c then trimStart s' else s
  | EmptyString => s
  end.

Definition digit (c : ascii) : option Z :=
  let n := Z.of_N (N_of_ascii c) in
  if (48 <=? n) && (n <=? 57) then Some (n - 48) else None.

(** Reads the digits at the head of [s]: their value on top of [acc], their
    number on top of [count], and the rest of the string. *)
Fixpoint digits (s : string) (acc : Z) (count : nat) : Z * nat * string :=
  match s with
  | String c s' =>
      match digit c with
      | Some d => digits s' (10 * acc + d) (S count)
      | None => (acc, count, s)
      end
  | EmptyString => (acc, count, s)
  end.

Fixpoint strip_prefix (pre s : string) : option string :=
  match pre, s with
  | EmptyString, _ => Some s
  | String a pre', String b s' =>
      if decide (a = b) then strip_prefix pre' s' else None
  | _, _ => None
  end.

Definition sign_of (s : string) : bool * string :=
  match s with
  | String "-" r => (true, r)
  | String "+" r => (false, r)
  | _ => (false, s)
  end.

Definition exponent_of (s : string) : Z :=
  match s with
  | String c r =>
      if bool_decide (c = "e"%char) || bool_decide (c = "E"%char) then
        let '(negative, r') := sign_of r in
        let '(v, n, _) := digits r' 0 0 in
        match n with
        | O => 0
        | S _ => if negative then - v else v
        end
      else 0
  | EmptyString => 0
  end.

Definition pow10 (e : Z) : Q :=
  if 0 <=? e then inject_Z (10 ^ e) else 1 # Z.to_pos (10 ^ (- e)).

Definition parseFloat (input : string) : JS.number :=
  let '(negative, s) := sign_of (trimStart input) in
  match strip_prefix "Infinity" s with
  | Some _ => JS.Inf negative
  | None =>
      let '(i, ni, s1) := digits s 0 0 in
      let '(f, nf, s2) :=
        match s1 with
        | String "." r => digits r 0 0
        | _ => (0, O, s1)
        end in
      match ni, nf with
      | O, O => JS.NaN
      | _, _ =>
          let mantissa := inject_Z (i * 10 ^ Z.of_nat nf + f) in
          let q := (mantissa * pow10 (exponent_of s2 - Z.of_nat nf))%Q in
          JS.b64 (if negative then - q else q)%Q
      end
  end.

(** [parseFloat(v)] for a property that may be [undefined]: the argument is
    first converted to a string. *)
Definition parseFloat_field (v : option string) : JS.number :=
  parseFloat (default "undefined" v).

(** ** The [/api/detect] handler *)

(** [req.file] as the upload middleware leaves it, and the text fields of
    the form in [req.body]. *)
Record UploadedFile : Type := {
  path : string;
  mimetype : string;
  size : Z
}.

Record Request : Type := {
  file : option UploadedFile;
  body : gmap string string
}.

Definition confidenceThresholdOf (req : Request) : JS.number :=
  JS.or_else (parseFloat_field (body req !! "confidenceThreshold"))
    (JS.of_Z 80).

Section Detect.

Context (w : World).

(** The callback of [data.Persons.map], run when the promise of person
    [idx] settles; [generatedFiles] is the array shared by the request and
    [slots] the array [Promise.all] fills by position. *)
Definition personTask (imagePath : string) (imageMetadata : ImageMetadata)
    (confidenceThreshold : JS.number) (persons : list Person)
    (acc : list string * list (option PersonResult)) (idx : nat)
  : M (list string * list (option PersonResult)) :=
  match persons !! idx with
  | None => ret acc
  | Some person =>
      let* r := processPersonImage w imagePath person imageMetadata
                  (fst acc) confidenceThreshold in
      ret (snd r, <[idx := Some (personResult idx person (fst r))]> (snd acc))
  end.

Fixpoint foldM {A B} (f : A -> B -> M A) (a : A) (l : list B) : M A :=
  match l with
  | [] => ret a
  | b :: l' => let* a' := f a b in foldM f a' l'
  end.

Fixpoint settled {A} (slots : list (option A)) : option (list A) :=
  match slots with
  | [] => Some []
  | Some a :: slots' =>
      match settled slots' with
      | Some l => Some (a :: l)
      | None => None
      end
  | None :: _ => None
  end.

(** [await Promise.all(persons.map(async (person, idx) => ...))]: the
    callbacks finish in the order [completion w]; the value is the array of
    their results by position, once every position is filled. *)
Definition promiseAllPersons (imagePath : string)
    (imageMetadata : ImageMetadata) (confidenceThreshold : JS.number)
    (persons : list Person) : M (list PersonResult * list string) :=
  let* acc := foldM (personTask imagePath imageMetadata confidenceThreshold
                       persons)
                ([], replicate (length persons) None) (completion w) in
  match settled (snd acc) with
  | Some results => ret (results, fst acc)
  | None => hang
  end.

Definition detect (req : Request) : M unit :=
  try_catch
    (let* imagePath :=
       match file req with
       | Some f => ret (path f)
       | None => throw TypeError
       end in
     readFileSync imagePath >>>
     let confidenceThreshold := confidenceThresholdOf req in
     let* imageMetadata := lift_result (sharp_metadata w imagePath) in
     try_catch
       (emit (CallRekognition confidenceThreshold) >>>
        let* Persons :=
          lift_result (rekognition_send w imagePath confidenceThreshold) in
        let* r := promiseAllPersons imagePath imageMetadata
                    confidenceThreshold (default [] Persons) in
        unlinkSync imagePath >>>
        emit (Respond (Success (fst r) imageMetadata)) >>>
        emit (SetTimeout 60000 (snd r)))
       (fun rekognitionError =>
          unlinkSync imagePath >>>
          emit (ConsoleError "Rekognition Error:") >>>
          emit (Respond
                  (Failure 500 "Failed to process image with AWS Rekognition"
                     rekognitionError))))
    (fun error =>
       emit (ConsoleError "Error:") >>>
       emit (Respond (Failure 500 "Error processing image" error))).

(** ** Sweeps of the processed-images directory *)

Fixpoint has_slash (s : string) : bool :=
  match s with
  | String c s' => bool_decide (c = "/"%char) || has_slash s'
  | EmptyString => false
  end.

Definition entry_of (dir p : string) : option string :=
  match strip_prefix (dir +:+ "/") p with
  | Some name => if has_slash name then None else Some name
  | None => None
  end.

(** [fs.readdirSync(dir)]: the names of the files directly under [dir].
    The directory itself is created when the server starts. *)
Definition readdirSync (dir : string) : M (list string) :=
  fun st => (Ok (omap (entry_of dir) (map_to_list (files st)).*1), st).

(** One iteration of the periodic sweep, at time [t]. *)
Definition sweepFile (t : Z) (file : string) : M unit :=
  let filePath := path_join (processedImagesDir w) file in
  try_catch
    (let* mtime := statSync filePath in
     if 120000 <? t - mtime then
       unlinkSync filePath >>>
       emit (ConsoleLog ("Periodic cleanup: removed old file " +:+ filePath))
     else ret tt)
    (fun error =>
       emit (ConsoleError ("Error during periodic cleanup of " +:+ filePath))).

(** The callback of [setInterval], fired at time [t]. *)
Definition periodicCleanup (t : Z) : M unit :=
  try_catch
    (let* names := readdirSync (processedImagesDir w) in
     forEach (sweepFile t) names)
    (fun error => emit (ConsoleError "Error during periodic cleanup:")).

Definition removeProcessed (file : string) : M unit :=
  let filePath := path_join (processedImagesDir w) file in
  try_catch
    (unlinkSync filePath >>>
     emit (ConsoleLog ("Cleaned up processed image: " +:+ filePath)))
    (fun error =>
       emit (ConsoleError ("Error cleaning up processed image " +:+ filePath))).

Definition cleanupProcessedImages : M unit :=
  try_catch
    (let* names := readdirSync (processedImagesDir w) in
     forEach removeProcessed names)
    (fun error =>
       emit (ConsoleError "Error cleaning up processed images directory:")).

End Detect.

(** ** Client: validation of the chosen file and the request it sends *)

Record File : Type := {
  f_name : string;
  f_type : string;
  f_size : Z
}.

Inductive Validation : Type :=
  | Valid
  | Invalid (error : string).

Definition allowedTypes : list string :=
  ["image/jpeg"; "image/jpg"; "image/png"].

Definition maxSize : Z := 10 * 1024 * 1024.

Definition validateImageFile (file : File) : Validation :=
  if negb (bool_decide (f_type file ∈ allowedTypes)) then
    Invalid "Invalid file type. Please upload a JPEG or PNG image."
  else if maxSize <? f_size file then
    Invalid "File too large. Please upload an image smaller than 10MB."
  else Valid.

(** The parts of a [FormData]: the file appended under [image] and the text
    fields, in the order of the [append] calls. *)
Record FormData : Type := {
  fd_image : File;
  fd_fields : list (string * string)
}.

Definition createFormData (image : File) (confidenceThreshold : Z)
  : FormData :=
  {| fd_image := image;
     fd_fields := [("confidence_threshold", pretty confidenceThreshold)] |}.

(** What [upload.single("image")] hands to the handler for a form: the file
    stored under [storedPath] and the text fields as [req.body]. *)
Definition upload_single (storedPath : string) (fd : FormData) : Request :=
  {| file :=
       Some {| path := storedPath;
               mimetype := f_type (fd_image fd);
               size := f_size (fd_image fd) |};
     body := list_to_map (fd_fields fd) |}.

Record ClientState : Type := {
  uploadedFile : option File;
  uploadedImage : option string;
  results : list PersonResult;
  error : option string
}.

(** [processFileUpload]; [fileToBase64] is the browser's file reader. *)
Definition processFileUpload (fileToBase64 : File -> option string)
    (file : File) (st : ClientState) : ClientState :=
  match validateImageFile file with
  | Invalid e =>
      {| uploadedFile := uploadedFile st; uploadedImage := uploadedImage st;
         results := results st; error := Some e |}
  | Valid =>
      match fileToBase64 file with
      | Some base64 =>
          {| uploadedFile := Some file; uploadedImage := Some base64;
             results := []; error := None |}
      | None =>
          {| uploadedFile := uploadedFile st;
             uploadedImage := uploadedImage st;
             results := results st; error := Some "Error processing file" |}
      end
  end.

(** ** The administrative endpoint

    [app.post("/api/cleanup")]; the value is the body given to [res.json]:
<<
  try { cleanupProcessedImages(); res.json({ success: true, ... }); }
  catch (error) { ...; res.status(500).json({ success: false, ... }); }
>> *)
Inductive AdminResponse : Type :=
  | CleanupCompleted
  | CleanupFailed (cause : Exn).

Definition cleanupEndpoint (w : World) : M AdminResponse :=
  try_catch
    (cleanupProcessedImages w >>> ret CleanupCompleted)
    (fun error =>
       emit (ConsoleError "Cleanup error:") >>> ret (CleanupFailed error)).

(** ** Client: the page as a state machine *)

(** [increaseConfidence] and [decreaseConfidence]:
<<
  setConfidence((prev) => Math.min(95, prev + 5));
  setConfidence((prev) => Math.max(50, prev - 5));
>>
    on the integer values that the buttons produce from the initial 80. *)
Definition increaseConfidence (prev : Z) : Z := Z.min 95 (prev + 5).
Definition decreaseConfidence (prev : Z) : Z := Z.max 50 (prev - 5).

(** The state of [PPEDetectionApp] beside the upload. *)
Record AppState : Type := {
  upload : ClientState;
  app_confidence : Z;
  isConnected : option bool;
  isProcessing : bool
}.

Definition initialApp : AppState :=
  {| upload := {| uploadedFile := None; uploadedImage := None;
                  results := []; error := None |};
     app_confidence := 80;
     isConnected := None;
     isProcessing := false |}.

Definition with_upload (u : ClientState) (st : AppState) : AppState :=
  {| upload := u; app_confidence := app_confidence st;
     isConnected := isConnected st; isProcessing := isProcessing st |}.

Definition setError (msg : string) (u : ClientState) : ClientState :=
  {| uploadedFile := uploadedFile u; uploadedImage := uploadedImage u;
     results := results u; error := Some msg |}.

(** The outcome of [ppeAPI.detectPPE]: a body read from a 2xx response, an
    [APIError] (a response that is not ok, or the network), or any other
    exception. *)
Inductive ApiOutcome : Type :=
  | ApiBody (success : bool) (found : option (list PersonResult))
      (err : option string)
  | ApiFailed (message : string)
  | ApiCrashed.

(** The outcome of [ppeAPI.healthCheck] when the page is mounted. *)
Inductive HealthOutcome : Type :=
  | Healthy
  | HealthFailed (message : string)
  | HealthCrashed.

(** Truthiness of a string state that may be [null]. *)
Definition nonEmpty (v : option string) : bool :=
  match v with
  | Some str => negb (bool_decide (str = ""))
  | None => false
  end.

(** [response.error || "Detection failed"] *)
Definition errorOr (err : option string) (fallback : string) : string :=
  match err with
  | Some e => if bool_decide (e = "") then fallback else e
  | None => fallback
  end.

Section Page.

Context (fileToBase64 : File -> option string)
  (detectPPE : FormData -> ApiOutcome).

(** [handleImageUpload]: [event.target.files?.[0]] *)
Definition handleImageUpload (file : option File) (st : AppState) : AppState :=
  match file with
  | Some f => with_upload (processFileUpload fileToBase64 f (upload st)) st
  | None => st
  end.

(** [handleDrop]: only the first dropped file is looked at. *)
Definition handleDrop (dropped : list File) (st : AppState) : AppState :=
  match dropped with
  | [] => st
  | f :: _ =>
      if bool_decide (is_Some (strip_prefix "image/" (f_type f))) then
        with_upload (processFileUpload fileToBase64 f (upload st)) st
      else
        with_upload
          (setError "Please upload a valid image file (JPEG or PNG)"
             (upload st)) st
  end.

(** [processImage]: the new state and the form it has sent, if any. *)
Definition processImage (st : AppState) : AppState * option FormData :=
  match uploadedFile (upload st), nonEmpty (uploadedImage (upload st)) with
  | Some f, true =>
      match isConnected st with
      | Some true =>
          let fd := createFormData f (app_confidence st) in
          let shown (rs : list PersonResult) (e : option string) :=
            {| upload :=
                 {| uploadedFile := uploadedFile (upload st);
                    uploadedImage := uploadedImage (upload st);
                    results := rs; error := e |};
               app_confidence := app_confidence st;
               isConnected := isConnected st;
               isProcessing := false |} in
          (match detectPPE fd with
           | ApiBody true (Some rs) _ =>
               shown (processDetectionResults rs
                        (JS.of_Z (app_confidence st))) None
           | ApiBody _ _ err =>
               shown [] (Some (errorOr err "Detection failed"))
           | ApiFailed message =>
               shown [] (Some ("API Error: " +:+ message))
           | ApiCrashed =>
               shown []
                 (Some "An unexpected error occurred during processing")
           end,
           Some fd)
      | _ =>
          (with_upload
             (setError
                "Not connected to API. Please check your backend server."
                (upload st)) st,
           None)
      end
  | _, _ =>
      (with_upload (setError "Please upload an image first" (upload st)) st,
       None)
  end.

Inductive PageEvent : Type :=
  | SelectFile (file : option File)
  | DropFiles (dropped : list File)
  | ClickUp
  | ClickDown
  | HealthChecked (outcome : HealthOutcome)
  | ClickGo.

Definition setConfidence (c : Z) (st : AppState) : AppState :=
  {| upload := upload st; app_confidence := c;
     isConnected := isConnected st; isProcessing := isProcessing st |}.

(** [checkConnection], run once the health check has settled. *)
Definition checkConnection (outcome : HealthOutcome) (st : AppState)
  : AppState :=
  let u := upload st in
  let shown (ok : bool) (e : option string) :=
    {| upload := {| uploadedFile := uploadedFile u;
                    uploadedImage := uploadedImage u;
                    results := results u; error := e |};
       app_confidence := app_confidence st;
       isConnected := Some ok; isProcessing := isProcessing st |} in
  match outcome with
  | Healthy => shown true None
  | HealthFailed message =>
      shown false (Some ("API Connection Error: " +:+ message))
  | HealthCrashed =>
      shown false (Some "Unable to connect to PPE Detection API")
  end.

(** One event of the page: the new state and the forms sent so far. *)
Definition pageStep (acc : AppState * list FormData) (ev : PageEvent)
  : AppState * list FormData :=
  let '(st, sent) := acc in
  match ev with
  | SelectFile file => (handleImageUpload file st, sent)
  | DropFiles dropped => (handleDrop dropped st, sent)
  | ClickUp => (setConfidence (increaseConfidence (app_confidence st)) st, sent)
  | ClickDown =>
      (setConfidence (decreaseConfidence (app_confidence st)) st, sent)
  | HealthChecked outcome => (checkConnection outcome st, sent)
  | ClickGo =>
      match processImage st with
      | (st', Some fd) => (st', sent ++ [fd])
      | (st', None) => (st', sent)
      end
  end.

Definition pageRun (events : list PageEvent) : AppState * list FormData :=
  foldl pageStep (initialApp, []) events.

End Page.

(** ** Vocabulary of the properties *)

(** [r] is the floor of [v]: the integer just below a finite [v]. *)
Definition floor_of (v r : JS.number) : Prop :=
  match v with
  | JS.Fin q =>
      exists z : Z,
        r = JS.of_Z z /\ (inject_Z z <= q)%Q /\ (q < inject_Z (z + 1))%Q
  | _ => r = v
  end.

(** The events a per-person task may leave in the trace. *)
Definition quiet (e : Event) : Prop :=
  match e with
  | WriteFile _ | ConsoleError _ => True
  | _ => False
  end.

Definition responses (tr : list Event) : list Response :=
  omap (fun e => match e with Respond r => Some r | _ => None end) tr.

Definition isCall (e : Event) : bool :=
  match e with
  | CallRekognition _ => true
  | _ => false
  end.

Definition externalCalls (tr : list Event) : nat :=
  length (List.filter isCall tr).

(** [e1] occurs in the trace, and [e2] occurs after it. *)
Definition occurs_before (e1 e2 : Event) (tr : list Event) : Prop :=
  exists l1 l2 l3, tr = l1 ++ e1 :: l2 ++ e2 :: l3.

(** The annotation and crop of [person] cannot succeed: the original does
    not decode, the crop region is refused, or no file can be written. *)
Definition renderFails (w : World) (imagePath : string) (md : ImageMetadata)
    (person : Person) : Prop :=
  loadImage w imagePath = false \/
  sharp_extract w md (cropRect (p_BoundingBox person) md) = false \/
  (forall uuid, writable w (personFilePath w person uuid) = false).

(** [url] is an image reference the server may give for [person]: the
    placeholder, or a generated file; the placeholder when rendering fails. *)
Definition imageFor (w : World) (imagePath : string) (md : ImageMetadata)
    (person : Person) (url : string) : Prop :=
  (url = placeholderUrl w person \/ exists uuid, url = generatedUrl w person uuid) /\
  (renderFails w imagePath md person -> url = placeholderUrl w person).

(** Every filled slot holds the record of the person at that position. *)
Definition slotsOK (w : World) (imagePath : string) (md : ImageMetadata)
    (persons : list Person) (slots : list (option PersonResult)) : Prop :=
  forall j r,
    slots !! j = Some (Some r) ->
    exists person url,
      persons !! j = Some person /\ r = personResult j person url /\
      imageFor w imagePath md person url.

Definition filled (slots : list (option PersonResult)) (j : nat) : Prop :=
  exists r, slots !! j = Some (Some r).

(** The persons the handler maps over, for an answer of the service. *)
Definition personsOf (answer : Exn + option (list Person)) : list Person :=
  match answer with
  | inr Persons => default [] Persons
  | inl _ => []
  end.

(** ** Sample data *)

(** A region that the image library accepts: inside the image and not
    empty. *)
Definition regionInside (md : ImageMetadata) (r : Rect) : bool :=
  match r_x r, r_y r, r_w r, r_h r with
  | JS.Fin x, JS.Fin y, JS.Fin rw, JS.Fin rh =>
      Qle_bool 0 x && Qle_bool 0 y &&
      negb (Qle_bool rw 0) && negb (Qle_bool rh 0) &&
      Qle_bool (x + rw) (inject_Z (width md)) &&
      Qle_bool (y + rh) (inject_Z (height md))
  | _, _, _, _ => false
  end.

Definition sampleBox (l t wd h : Q) : BoundingBox :=
  {| Left := JS.Fin l; Top := JS.Fin t; Width := JS.Fin wd;
     Height := JS.Fin h |}.

(** A person whose hard hat is detected with confidence 90.4. *)
Definition alice : Person :=
  {| Id := 0; p_Confidence := JS.Fin (997 # 10);
     p_BoundingBox := sampleBox (1 # 4) (1 # 4) (1 # 2) (1 # 2);
     BodyParts :=
       Some [ {| bp_Name := HEAD; bp_Confidence := JS.of_Z 99;
                 EquipmentDetections :=
                   [ {| eq_Type := HEAD_COVER;
                        eq_Confidence := JS.Fin (452 # 5);
                        eq_BoundingBox :=
                          Some (sampleBox (3 # 8) (1 # 4) (1 # 8) (1 # 8)) |} ]
              |} ] |}.

(** A person whose bounding box is empty. *)
Definition bob : Person :=
  {| Id := 1; p_Confidence := JS.of_Z 80;
     p_BoundingBox := sampleBox (1 # 2) (1 # 2) 0 (1 # 2);
     BodyParts := None |}.

Definition sampleMetadata : ImageMetadata :=
  {| width := 1000; height := 800; format := "png" |}.

(** The service finds [alice] and [bob]; the promise of the second person
    settles before that of the first. *)
Definition sampleWorld : World :=
  {| serverUrl := "https://detection.gulfconsulting.com.au";
     processedImagesDir := "/srv/processed-images";
     sharp_metadata := fun _ => inr sampleMetadata;
     rekognition_send := fun _ _ => inr (Some [alice; bob]);
     loadImage := fun _ => true;
     sharp_extract := regionInside;
     writable := fun _ => true;
     uuidv4 := fun n => "uuid" +:+ pretty n;
     completion := [1%nat; 0%nat];
     now := 1000 |}.

(** The upload is not an image that the metadata reader understands. *)
Definition unreadableWorld : World :=
  {| serverUrl := serverUrl sampleWorld;
     processedImagesDir := processedImagesDir sampleWorld;
     sharp_metadata :=
       fun _ => inl (External "Input file contains unsupported image format");
     rekognition_send := rekognition_send sampleWorld;
     loadImage := fun _ => false;
     sharp_extract := regionInside;
     writable := fun _ => true;
     uuidv4 := uuidv4 sampleWorld;
     completion := [];
     now := 1000 |}.

(** The upload is a GIF: its metadata can be read, the service refuses it. *)
Definition gifWorld : World :=
  {| serverUrl := serverUrl sampleWorld;
     processedImagesDir := processedImagesDir sampleWorld;
     sharp_metadata :=
       fun _ => inr {| width := 10; height := 10; format := "gif" |};
     rekognition_send :=
       fun _ _ => inl (External "Request has invalid image format");
     loadImage := fun _ => true;
     sharp_extract := regionInside;
     writable := fun _ => true;
     uuidv4 := uuidv4 sampleWorld;
     completion := [];
     now := 1000 |}.

Definition sampleUpload (type : string) : UploadedFile :=
  {| path := "uploads/3f2a"; mimetype := type; size := 2048 |}.

Definition sampleRequest (type : string) : Request :=
  {| file := Some (sampleUpload type); body := ∅ |}.

(** The state in which the handler starts: the upload has been stored. *)
Definition sampleState : State :=
  {| files := {[ "uploads/3f2a" := 900 ]}; uuids := 0; trace := [] |}.

(** Closes a goal whose hypotheses order two rationals both ways. *)
Ltac q_absurd :=
  repeat match goal with
         | H : _ /\ _ |- _ => destruct H
         end;
  match goal with
  | H1 : (?a <= ?b)%Q, H2 : (?b < ?a)%Q |- _ =>
      destruct (Qlt_not_le _ _ H2 H1)
  end.

(** ** Vocabulary of the further properties *)

(** The paths written, in order. *)
Definition written (evs : list Event) : list string :=
  omap (fun e => match e with WriteFile p => Some p | _ => None end) evs.

(** The persons found for a request, if the service is asked and answers. *)
Definition personsFor (w : World) (req : Request) : list Person :=
  match file req with
  | Some f =>
      personsOf (rekognition_send w (path f) (confidenceThresholdOf req))
  | None => []
  end.

(** All equipment detections of a person, body parts in order. *)
Definition detectionsOf (person : Person) : list EquipmentDetection :=
  flat_map EquipmentDetections (default [] (BodyParts person)).

(** The colour in which a status is drawn, if it is drawn. *)
Definition colorOf (s : DetectionStatus) : option string :=
  match s with
  | Detected => Some "#00FF00"
  | Indeterminate => Some "#FFFF00"
  | _ => None
  end.

(** A file is directly under the processed-images directory. *)
Definition inProcessedDir (w : World) (p : string) : bool :=
  bool_decide (is_Some (entry_of (processedImagesDir w) p)).

(** Every PPE item of a record shown as [Detected] has a confidence that is
    not below the threshold. *)
Definition itemSettled (threshold : JS.number) (item : StatusRecord) : Prop :=
  status item = Detected -> JS.lt (confidence item) threshold = false.

Definition recordSettled (threshold : JS.number) (r : PersonResult) : Prop :=
  itemSettled threshold (hardHat r) /\ itemSettled threshold (faceMask r) /\
  itemSettled threshold (handProtectionL r) /\
  itemSettled threshold (handProtectionR r).

(** Every filled slot shows the placeholder or a file of the batch. *)
Definition linked (w : World) (persons : list Person) (gen : list string)
    (slots : list (option PersonResult)) : Prop :=
  forall j r,
    slots !! j = Some (Some r) ->
    exists person,
      persons !! j = Some person /\
      (image r = placeholderUrl w person \/
       exists uuid,
         image r = generatedUrl w person uuid /\
         personFilePath w person uuid ∈ gen).

(** [p] is the file of one of the persons. *)
Definition personFile (w : World) (persons : list Person) (p : string)
  : Prop :=
  exists person uuid, person ∈ persons /\ p = personFilePath w person uuid.

(** The file the page holds has passed the validation, the threshold is one
    of 50, 55, ..., 95, and so it was for every form sent. *)
Definition pageOK (acc : AppState * list FormData) : Prop :=
  (forall f, uploadedFile (upload (fst acc)) = Some f ->
             validateImageFile f = Valid) /\
  (50 <= app_confidence (fst acc) <= 95 /\
   (app_confidence (fst acc)) mod 5 = 0) /\
  Forall (fun fd =>
            validateImageFile (fd_image fd) = Valid /\
            exists c, 50 <= c <= 95 /\ c mod 5 = 0 /\
                      fd_fields fd = [("confidence_threshold", pretty c)])
    (snd acc).

(** * Properties *)

(** ** Status classification *)

Section Classification.

Lemma ge_Fin (a b : Q) : JS.ge (JS.Fin a) (JS.Fin b) = true <-> (b <= a)%Q.
Proof. apply Qle_bool_iff. Qed.

Lemma lt_Fin (a b : Q) : JS.lt (JS.Fin a) (JS.Fin b) = true <-> (a < b)%Q.
Proof.
  unfold JS.lt. rewrite negb_true_iff. split.
  - intros H. apply Qnot_le_lt. intros Hle.
    apply Qle_bool_iff in Hle. congruence.
  - intros H. destruct (Qle_bool b a) eqn:E; [|reflexivity].
    apply Qle_bool_iff in E. exfalso. exact (Qlt_not_le _ _ H E).
Qed.

Lemma gt_Fin (a b : Q) : JS.gt (JS.Fin a) (JS.Fin b) = true <-> (b < a)%Q.
Proof. apply lt_Fin. Qed.

Lemma equipmentStatus_cases (v t : Q) :
  let c := inject_Z (Qfloor (v + (1 # 2))) in
  ((t <= c)%Q /\ equipmentStatus (JS.Fin v) (JS.Fin t) = Detected) \/
  ((c < t)%Q /\ (0 < c)%Q /\
     equipmentStatus (JS.Fin v) (JS.Fin t) = Indeterminate) \/
  ((c < t)%Q /\ (c <= 0)%Q /\
     equipmentStatus (JS.Fin v) (JS.Fin t) = NotDetected).
Proof.
  intros c. unfold equipmentStatus, JS.Math_round, JS.of_Z. fold c.
  destruct (JS.ge (JS.Fin c) (JS.Fin t)) eqn:Hge.
  - left. split; [by apply ge_Fin|done].
  - assert (Hlt : (c < t)%Q).
    { apply Qnot_le_lt. intros H. apply ge_Fin in H. congruence. }
    destruct (JS.gt (JS.Fin c) (JS.Fin (inject_Z 0))) eqn:Hgt.
    + right; left. apply gt_Fin in Hgt. done.
    + right; right. repeat split; try done.
      apply Qnot_lt_le. intros H. apply gt_Fin in H.
      unfold inject_Z in Hgt. congruence.
Qed.

Lemma reclassify_Detected (c t : Q) :
  status (reclassifyItem (JS.Fin t)
            {| status := Detected; confidence := JS.Fin c |})
  = if JS.lt (JS.Fin c) (JS.Fin t) then Indeterminate else Detected.
Proof. unfold reclassifyItem. cbn. by destruct (negb _). Qed.

(** C1 (as the code has it).  With [c] the detection's confidence rounded by
    [Math.round], the status drawn by the server is [Detected] iff [c >= t],
    [Indeterminate] iff [0 < c < t], and [NotDetected] iff [c <= 0] and
    [c < t]; a missing confidence is [NotDetected]; the four boundary cases
    hold.  The client only turns a [Detected] record whose confidence is
    below the threshold into [Indeterminate], and leaves [NotDetected]. *)
Theorem equipmentStatus_threshold_rule :
  (forall v t : Q,
     let c := inject_Z (Qfloor (v + (1 # 2))) in
     (equipmentStatus (JS.Fin v) (JS.Fin t) = Detected <-> (t <= c)%Q) /\
     (equipmentStatus (JS.Fin v) (JS.Fin t) = Indeterminate
        <-> (0 < c)%Q /\ (c < t)%Q) /\
     (equipmentStatus (JS.Fin v) (JS.Fin t) = NotDetected
        <-> (c <= 0)%Q /\ (c < t)%Q)) /\
  (forall t, equipmentStatus JS.NaN t = NotDetected) /\
  equipmentStatus (JS.of_Z 0) (JS.of_Z 80) = NotDetected /\
  equipmentStatus (JS.of_Z 79) (JS.of_Z 80) = Indeterminate /\
  equipmentStatus (JS.of_Z 80) (JS.of_Z 80) = Detected /\
  equipmentStatus (JS.of_Z 100) (JS.of_Z 0) = Detected /\
  (forall c t : Q,
     let item := {| status := Detected; confidence := JS.Fin c |} in
     (status (reclassifyItem (JS.Fin t) item) = Detected <-> (t <= c)%Q) /\
     (status (reclassifyItem (JS.Fin t) item) = Indeterminate <-> (c < t)%Q)) /\
  (forall t n,
     reclassifyItem t {| status := NotDetected; confidence := n |}
     = {| status := NotDetected; confidence := n |}).
Proof.
  split; [|split; [|split; [|split; [|split; [|split; [|split]]]]]];
    try reflexivity.
  - intros v t c.
    destruct (equipmentStatus_cases v t) as [[H1 ->]|[(H1&H2&->)|(H1&H2&->)]];
      fold c in H1 |- *; try fold c in H2;
      repeat split; intros; try done; q_absurd.
  - intros t. destruct t as [|[]|]; reflexivity.
  - intros c t item. unfold item. rewrite reclassify_Detected.
    destruct (JS.lt (JS.Fin c) (JS.Fin t)) eqn:E.
    + apply lt_Fin in E. repeat split; intros; try done; q_absurd.
    + assert (t <= c)%Q.
      { apply Qnot_lt_le. intros H. apply lt_Fin in H. congruence. }
      repeat split; intros; try done; q_absurd.
  - intros t n. unfold reclassifyItem. cbn.
    by rewrite andb_false_r.
Qed.

(** C1 as stated fails: at threshold 0 a confidence of 0 is [Detected]
    although [c <= 0]; the raw confidence 79.5 is below the threshold 80 and
    yet [Detected], since it is rounded first; and on the client a record
    returned as [Detected] with confidence 0 becomes [Indeterminate] at
    threshold 80, not [NotDetected]. *)
Lemma equipmentStatus_threshold_rule_counterexample :
  ~ (equipmentStatus (JS.of_Z 0) (JS.of_Z 0) = NotDetected <-> (0 <= 0)%Q) /\
  ~ (equipmentStatus (JS.Fin (159 # 2)) (JS.of_Z 80) = Indeterminate
       <-> (0 < 159 # 2)%Q /\ (159 # 2 < 80)%Q) /\
  status (reclassifyItem (JS.of_Z 80)
            {| status := Detected; confidence := JS.of_Z 0 |})
  = Indeterminate.
Proof.
  repeat split.
  - intros [_ H]. discriminate H. apply Qle_refl.
  - intros [_ H]. discriminate H. split; reflexivity.
Qed.

End Classification.

(** ** Result assembler *)

Section Assembler.

Lemma find_existsb {A} (f : A -> bool) (l : list A) :
  existsb f l = true -> exists a, List.find f l = Some a /\ f a = true.
Proof.
  induction l as [|a l IH]; cbn; [done|].
  destruct (f a) eqn:E; [eauto|]. exact IH.
Qed.

Lemma find_not_existsb {A} (f : A -> bool) (l : list A) :
  existsb f l = false -> List.find f l = None.
Proof.
  induction l as [|a l IH]; cbn; [done|].
  destruct (f a); [done|]. exact IH.
Qed.

Lemma find_app_cases {A} (f : A -> bool) (l1 l2 : list A) :
  List.find f (l1 ++ l2)
  = match List.find f l1 with
    | Some a => Some a
    | None => List.find f l2
    end.
Proof.
  induction l1 as [|a l1 IH]; cbn; [done|]. by destruct (f a).
Qed.

(** What [getStatus] computes: the first detection of the type, over the
    body parts in order, decides the record; without one the confidence is
    0, whatever body parts there are. *)
Lemma getStatus_first_match (bodyParts : list BodyPart) (type : EquipmentType) :
  getStatus bodyParts type
  = match List.find (hasType type) (flat_map EquipmentDetections bodyParts) with
    | Some d =>
        {| status := Detected;
           confidence := JS.Math_round (eq_Confidence d) |}
    | None => {| status := NotDetected; confidence := JS.of_Z 0 |}
    end.
Proof.
  unfold getStatus.
  induction bodyParts as [|p parts IH]; cbn [List.find flat_map]; [done|].
  rewrite find_app_cases.
  destruct (existsb (hasType type) (EquipmentDetections p)) eqn:E.
  - destruct (find_existsb _ _ E) as (d & -> & _). done.
  - rewrite (find_not_existsb _ _ E). exact IH.
Qed.

(** The branch of [getStatus] that reads the body part's confidence is
    never taken: a [NotDetected] record always carries confidence 0. *)
Lemma getStatus_NotDetected_zero (bodyParts : list BodyPart)
    (type : EquipmentType) :
  status (getStatus bodyParts type) = NotDetected ->
  confidence (getStatus bodyParts type) = JS.of_Z 0.
Proof.
  rewrite getStatus_first_match.
  by destruct (List.find _ _).
Qed.

(** C2, at the input where the code departs from it: the head is present
    with its own confidence 99 and carries no detection; [getStatus] answers
    [NotDetected] with confidence 0, not 99. *)
Theorem getStatus_part_without_detection :
  let head := {| bp_Name := HEAD; bp_Confidence := JS.of_Z 99;
                 EquipmentDetections := [] |} in
  regionOf HEAD_COVER (bp_Name head) = true /\
  getStatus [head] HEAD_COVER
  = {| status := NotDetected; confidence := JS.of_Z 0 |} /\
  confidence (getStatus [head] HEAD_COVER)
  <> JS.Math_round (bp_Confidence head).
Proof. repeat split. discriminate. Qed.

(** C7: both hand fields of an assembled record are the same pair, and
    they stay equal after the client's re-classification. *)
Theorem handProtection_same (idx : nat) (person : Person) (url : string)
    (threshold : JS.number) :
  let r := personResult idx person url in
  handProtectionL r = handProtectionR r /\
  status (handProtectionL r) = status (handProtectionR r) /\
  confidence (handProtectionL r) = confidence (handProtectionR r) /\
  handProtectionL (processDetectionResult threshold r)
  = handProtectionR (processDetectionResult threshold r).
Proof. done. Qed.

End Assembler.

(** ** Geometry *)

Section Geometry.

Lemma Math_floor_floor_of (v : JS.number) : floor_of v (JS.Math_floor v).
Proof.
  destruct v as [| |q]; cbn; try done.
  exists (Qfloor q). split; [done|]. split; [apply Qfloor_le|apply Qlt_floor].
Qed.

(** C5 (as the code has it).  The region cropped for a person floors all
    four scaled values; the rectangle drawn for an equipment detection uses
    the four scaled values as they are. *)
Theorem rect_scaling (box : BoundingBox) (md : ImageMetadata) :
  let W := JS.of_Z (width md) in
  let H := JS.of_Z (height md) in
  (floor_of (JS.mul (Left box) W) (r_x (cropRect box md)) /\
   floor_of (JS.mul (Top box) H) (r_y (cropRect box md)) /\
   floor_of (JS.mul (Width box) W) (r_w (cropRect box md)) /\
   floor_of (JS.mul (Height box) H) (r_h (cropRect box md))) /\
  (r_x (equipmentRect box md) = JS.mul (Left box) W /\
   r_y (equipmentRect box md) = JS.mul (Top box) H /\
   r_w (equipmentRect box md) = JS.mul (Width box) W /\
   r_h (equipmentRect box md) = JS.mul (Height box) H).
Proof.
  cbn. repeat split; apply Math_floor_floor_of.
Qed.

(** C5 as stated fails: for the box (1/2, 1/2, 1/2, 1/2) on a 3 by 3 image
    the drawn rectangle starts at 3/2, which is not floored, and the cropped
    region is 1 wide, which is. *)
Lemma rect_scaling_counterexample :
  let box := {| Left := JS.Fin (1 # 2); Top := JS.Fin (1 # 2);
                Width := JS.Fin (1 # 2); Height := JS.Fin (1 # 2) |} in
  let md := {| width := 3; height := 3; format := "png" |} in
  r_x (equipmentRect box md) = JS.Fin (3 # 2) /\
  r_x (equipmentRect box md)
  <> JS.Math_floor (JS.mul (Left box) (JS.of_Z (width md))) /\
  r_w (cropRect box md) = JS.of_Z 1 /\
  r_w (cropRect box md) <> JS.mul (Width box) (JS.of_Z (width md)).
Proof.
  repeat split; vm_compute; discriminate.
Qed.

End Geometry.

(** ** The per-person tasks and [Promise.all] *)

Section Tasks.

Context (w : World) (imagePath : string) (md : ImageMetadata)
  (threshold : JS.number).

(** [processPersonImage] always returns: the placeholder with the file
    system untouched, or the reference of the file it has just written. *)
Lemma processPersonImage_cases (person : Person) (gen : list string)
    (st : State) :
  (exists k,
     processPersonImage w imagePath person md gen threshold st
     = (Ok (placeholderUrl w person, gen),
        {| files := files st; uuids := k;
           trace := trace st
                      ++ [ConsoleError "Error processing person image:"] |}))
  \/
  (let uuid := uuidv4 w (uuids st) in
   let filePath := personFilePath w person uuid in
   loadImage w imagePath = true /\
   sharp_extract w md (cropRect (p_BoundingBox person) md) = true /\
   writable w filePath = true /\
   processPersonImage w imagePath person md gen threshold st
   = (Ok (generatedUrl w person uuid, gen ++ [filePath]),
      {| files := <[filePath := now w]> (files st); uuids := S (uuids st);
         trace := trace st ++ [WriteFile filePath] |})).
Proof.
  unfold processPersonImage, loadAndDraw, extract, try_catch, bind,
    readFileSync, guard, next_uuid, writeFileSync, emit, ret, throw.
  destruct (files st !! imagePath) as [m|]; [|left; by exists (uuids st)].
  destruct (loadImage w imagePath) eqn:Hl; [|left; by exists (uuids st)].
  destruct (sharp_extract w md _) eqn:He; [|left; by exists (uuids st)].
  cbn.
  destruct (writable w _) eqn:Hw; [|left; by exists (S (uuids st))].
  right. done.
Qed.

Lemma processPersonImage_image (person : Person) (gen : list string)
    (st : State) :
  exists url gen' st',
    processPersonImage w imagePath person md gen threshold st
    = (Ok (url, gen'), st') /\
    imageFor w imagePath md person url /\
    (forall p, is_Some (files st !! p) -> is_Some (files st' !! p)) /\
    exists evs, trace st' = trace st ++ evs /\ Forall quiet evs.
Proof.
  destruct (processPersonImage_cases person gen st)
    as [[k ->]|(Hl & He & Hw & ->)].
  - eexists _, _, _. split; [done|]. split; [split; [by left|done]|].
    split; [done|]. eexists. split; [done|]. by repeat constructor.
  - eexists _, _, _. split; [done|]. split; [split|].
    + right. by eexists.
    + intros [H|[H|H]]; [congruence..|]. rewrite H in Hw. done.
    + split.
      * intros p Hp. cbn.
        destruct (decide (personFilePath w person (uuidv4 w (uuids st)) = p))
          as [->|Hne].
        -- rewrite lookup_insert_eq. by eexists.
        -- by rewrite lookup_insert_ne.
      * eexists. split; [done|]. by repeat constructor.
Qed.

Lemma personTask_step (persons : list Person)
    (acc : list string * list (option PersonResult)) (idx : nat) (st : State) :
  slotsOK w imagePath md persons (snd acc) ->
  exists acc' st',
    personTask w imagePath md threshold persons acc idx st = (Ok acc', st') /\
    slotsOK w imagePath md persons (snd acc') /\
    length (snd acc') = length (snd acc) /\
    (forall j, filled (snd acc) j -> filled (snd acc') j) /\
    (idx < length persons -> idx < length (snd acc) ->
     filled (snd acc') idx)%nat /\
    (forall p, is_Some (files st !! p) -> is_Some (files st' !! p)) /\
    exists evs, trace st' = trace st ++ evs /\ Forall quiet evs.
Proof.
  intros Hok. unfold personTask.
  destruct (persons !! idx) as [person|] eqn:Hp.
  - destruct (processPersonImage_image person (fst acc) st)
      as (url & gen' & st' & Hrun & Himg & Hfiles & Htrace).
    exists (gen', <[idx := Some (personResult idx person url)]> (snd acc)), st'.
    split; [unfold bind; by rewrite Hrun|].
    cbn [snd]. split; [|split; [|split; [|split; [|split]]]]; try done.
    + intros j r Hj.
      destruct (decide (idx = j)) as [->|Hne].
      * destruct (decide (j < length (snd acc))%nat) as [Hlt|Hge].
        -- rewrite list_lookup_insert_eq in Hj by done.
           injection Hj as <-. by exists person, url.
        -- rewrite list_insert_ge in Hj by lia. by apply Hok.
      * rewrite list_lookup_insert_ne in Hj by done. by apply Hok.
    + by rewrite length_insert.
    + intros j [r Hj].
      destruct (decide (idx = j)) as [->|Hne].
      * eexists. rewrite list_lookup_insert_eq; [done|].
        by eapply lookup_lt_Some.
      * exists r. by rewrite list_lookup_insert_ne.
    + intros _ Hlt. eexists. by rewrite list_lookup_insert_eq.
  - exists acc, st. split; [done|].
    split; [done|]. split; [done|]. split; [done|]. split.
    + intros Hlt. apply lookup_ge_None in Hp. lia.
    + split; [done|]. exists []. by rewrite app_nil_r.
Qed.

Lemma tasks_fold (persons : list Person) (order : list nat) :
  forall (acc : list string * list (option PersonResult)) (st : State),
    slotsOK w imagePath md persons (snd acc) ->
    exists acc' st',
      foldM (personTask w imagePath md threshold persons) acc order st
      = (Ok acc', st') /\
      slotsOK w imagePath md persons (snd acc') /\
      length (snd acc') = length (snd acc) /\
      (forall j, filled (snd acc) j -> filled (snd acc') j) /\
      (forall j, j ∈ order -> j < length persons -> j < length (snd acc) ->
                 filled (snd acc') j)%nat /\
      (forall p, is_Some (files st !! p) -> is_Some (files st' !! p)) /\
      exists evs, trace st' = trace st ++ evs /\ Forall quiet evs.
Proof.
  induction order as [|idx order IH]; intros acc st Hok.
  - exists acc, st. repeat split; try done.
    + intros j Hj. by apply elem_of_nil in Hj.
    + exists []. by rewrite app_nil_r.
  - destruct (personTask_step persons acc idx st Hok)
      as (acc1 & st1 & Hrun & Hok1 & Hlen1 & Hkeep1 & Hidx & Hf1 & evs1 & Ht1 & Hq1).
    destruct (IH acc1 st1 Hok1)
      as (acc2 & st2 & Hrun2 & Hok2 & Hlen2 & Hkeep2 & Hin & Hf2 & evs2 & Ht2 & Hq2).
    exists acc2, st2. cbn [foldM]. unfold bind at 1. rewrite Hrun.
    split; [done|]. split; [done|]. split; [congruence|].
    split; [auto|]. split; [|split; [auto|]].
    + intros j Hj Hlt Hlt'. apply elem_of_cons in Hj as [->|Hj].
      * apply Hkeep2. by apply Hidx.
      * apply Hin; [done..|]. by rewrite Hlen1.
    + exists (evs1 ++ evs2). split.
      * by rewrite Ht2, Ht1, app_assoc.
      * by apply Forall_app.
Qed.

Lemma settled_all {A} (slots : list (option A)) :
  (forall j, j < length slots -> exists r, slots !! j = Some (Some r))%nat ->
  exists l, settled slots = Some l /\ slots = map Some l.
Proof.
  induction slots as [|s slots IH]; intros Hall.
  - by exists [].
  - destruct (Hall 0%nat) as [r Hr]; [cbn; lia|]. cbn in Hr.
    injection Hr as ->.
    destruct IH as (l & Hl & ->).
    { intros j Hj. apply (Hall (S j)). cbn. lia. }
    exists (r :: l). cbn. by rewrite Hl.
Qed.

(** When every promise settles, in whatever order, [Promise.all] yields one
    record per person, by position. *)
Lemma promiseAllPersons_ordered (persons : list Person) (st : State) :
  completion w ≡ₚ seq 0 (length persons) ->
  exists results gen st',
    promiseAllPersons w imagePath md threshold persons st
    = (Ok (results, gen), st') /\
    length results = length persons /\
    (forall i person,
       persons !! i = Some person ->
       exists url,
         results !! i = Some (personResult i person url) /\
         imageFor w imagePath md person url) /\
    (forall p, is_Some (files st !! p) -> is_Some (files st' !! p)) /\
    exists evs, trace st' = trace st ++ evs /\ Forall quiet evs.
Proof.
  intros Hperm. unfold promiseAllPersons.
  destruct (tasks_fold persons (completion w)
              ([], replicate (length persons) None) st)
    as (acc & st' & Hrun & Hok & Hlen & _ & Hin & Hfiles & Htrace).
  { intros j r Hj. cbn in Hj. apply lookup_replicate in Hj as [? _]. done. }
  cbn [snd] in Hlen, Hin. rewrite length_replicate in Hlen, Hin.
  destruct (settled_all (snd acc)) as (results & Hset & Hslots).
  { intros j Hj. apply Hin; [|lia..].
    rewrite Hperm. apply elem_of_seq. lia. }
  exists results, (fst acc), st'.
  unfold bind. rewrite Hrun, Hset.
  split; [done|].
  assert (Hlenr : length results = length persons).
  { by rewrite <- Hlen, Hslots, length_map. }
  split; [done|]. split; [|done].
  intros i person Hi.
  destruct (lookup_lt_is_Some_2 results i) as [r Hr].
  { rewrite Hlenr. by eapply lookup_lt_Some. }
  destruct (Hok i r) as (person' & url & Hp' & -> & Himg).
  { by rewrite Hslots, list_lookup_fmap, Hr. }
  assert (person' = person) as -> by congruence.
  by exists url.
Qed.

End Tasks.

(** ** The exit paths of [/api/detect] *)

Section Handler.

Context (w : World).

(** Reading the metadata fails: the outer handler answers, and the upload
    is still there. *)
Lemma detect_metadata_failure (req : Request) (f : UploadedFile) (m : Z)
    (e : Exn) (st : State) :
  file req = Some f ->
  files st !! path f = Some m ->
  sharp_metadata w (path f) = inl e ->
  detect w req st
  = (Ok tt,
     {| files := files st; uuids := uuids st;
        trace := trace st
                   ++ [ConsoleError "Error:";
                       Respond (Failure 500 "Error processing image" e)] |}).
Proof.
  intros Hf Hm He.
  unfold detect, try_catch, bind, readFileSync, lift_result, throw, emit, ret.
  rewrite Hf. cbn. rewrite Hm, He. cbn. by rewrite <- app_assoc.
Qed.

(** The detection service fails: the upload is removed, then the error is
    reported. *)
Lemma detect_rekognition_failure (req : Request) (f : UploadedFile) (m : Z)
    (md : ImageMetadata) (e : Exn) (st : State) :
  file req = Some f ->
  files st !! path f = Some m ->
  sharp_metadata w (path f) = inr md ->
  rekognition_send w (path f) (confidenceThresholdOf req) = inl e ->
  detect w req st
  = (Ok tt,
     {| files := delete (path f) (files st); uuids := uuids st;
        trace := trace st
                   ++ [CallRekognition (confidenceThresholdOf req);
                       Unlink (path f);
                       ConsoleError "Rekognition Error:";
                       Respond
                         (Failure 500
                            "Failed to process image with AWS Rekognition"
                            e)] |}).
Proof.
  intros Hf Hm Hmd He.
  unfold detect, try_catch, bind, readFileSync, lift_result, throw, emit, ret,
    unlinkSync.
  rewrite Hf. cbn. rewrite Hm, Hmd. cbn. rewrite He. cbn. rewrite Hm. cbn.
  by rewrite <- !app_assoc.
Qed.

(** The detection service answers and every per-person promise settles: the
    upload is removed, then the records are sent, one per person and by
    position. *)
Lemma detect_success (req : Request) (f : UploadedFile) (m : Z)
    (md : ImageMetadata) (Persons : option (list Person)) (st : State) :
  file req = Some f ->
  files st !! path f = Some m ->
  sharp_metadata w (path f) = inr md ->
  rekognition_send w (path f) (confidenceThresholdOf req) = inr Persons ->
  completion w ≡ₚ seq 0 (length (default [] Persons)) ->
  exists results gen evs st',
    detect w req st = (Ok tt, st') /\
    files st' !! path f = None /\
    trace st'
    = trace st
        ++ CallRekognition (confidenceThresholdOf req)
        :: evs
        ++ [Unlink (path f); Respond (Success results md);
            SetTimeout 60000 gen] /\
    Forall quiet evs /\
    length results = length (default [] Persons) /\
    (forall i person,
       default [] Persons !! i = Some person ->
       exists url,
         results !! i = Some (personResult i person url) /\
         imageFor w (path f) md person url).
Proof.
  intros Hf Hm Hmd Hr Hperm.
  set (st1 := {| files := files st; uuids := uuids st;
                 trace := trace st
                            ++ [CallRekognition (confidenceThresholdOf req)] |}).
  destruct (promiseAllPersons_ordered w (path f) md (confidenceThresholdOf req)
              (default [] Persons) st1 Hperm)
    as (results & gen & st2 & Hrun & Hlen & Hres & Hfiles & evs & Htr & Hq).
  destruct (Hfiles (path f)) as [m' Hm']; [by eexists|].
  eexists results, gen, evs, _. split.
  - unfold detect, try_catch, bind, readFileSync, lift_result, throw, emit,
      ret, unlinkSync.
    rewrite Hf. cbn. rewrite Hm, Hmd. cbn. rewrite Hr. cbn.
    fold st1. rewrite Hrun. cbn. rewrite Hm'. cbn. reflexivity.
  - cbn. split; [by rewrite lookup_delete_eq|].
    split; [|done].
    rewrite Htr. unfold st1. cbn. by rewrite <- !app_assoc.
Qed.

(** The handler never reads the declared type or size of the upload. *)
Lemma detect_ignores_mimetype (f : UploadedFile) (type' : string) (size' : Z)
    (fields : gmap string string) (st : State) :
  detect w {| file := Some f; body := fields |} st
  = detect w {| file := Some {| path := path f; mimetype := type';
                                size := size' |};
                body := fields |} st.
Proof. reflexivity. Qed.

Lemma occurs_before_intro (e1 e2 : Event) (l1 l2 l3 : list Event) :
  occurs_before e1 e2 (l1 ++ e1 :: l2 ++ e2 :: l3).
Proof. by exists l1, l2, l3. Qed.

(** On the two paths that the handler treats itself, the upload is removed
    before the response is sent. *)
Lemma detect_removes_upload_when_service_called (req : Request)
    (f : UploadedFile) (m : Z) (md : ImageMetadata)
    (answer : Exn + option (list Person)) (st : State) :
  file req = Some f ->
  files st !! path f = Some m ->
  sharp_metadata w (path f) = inr md ->
  rekognition_send w (path f) (confidenceThresholdOf req) = answer ->
  completion w ≡ₚ seq 0 (length (personsOf answer)) ->
  exists r st',
    detect w req st = (Ok tt, st') /\
    files st' !! path f = None /\
    occurs_before (Unlink (path f)) (Respond r) (trace st').
Proof.
  intros Hf Hm Hmd Ha Hperm. destruct answer as [e|Persons].
  - eexists _, _. split; [by eapply detect_rekognition_failure|].
    cbn. split; [by rewrite lookup_delete_eq|].
    exists (trace st ++ [CallRekognition (confidenceThresholdOf req)]),
      [ConsoleError "Rekognition Error:"], [].
    by rewrite <- app_assoc.
  - destruct (detect_success req f m md Persons st Hf Hm Hmd Ha Hperm)
      as (results & gen & evs & st' & Hrun & Hgone & Htr & _).
    exists (Success results md), st'. split; [done|]. split; [done|].
    rewrite Htr.
    exists (trace st ++ CallRekognition (confidenceThresholdOf req) :: evs),
      [], [SetTimeout 60000 gen].
    by rewrite <- app_assoc.
Qed.

End Handler.

(** ** Claims about the handler *)

Section HandlerClaims.

Lemma responses_quiet (evs : list Event) :
  Forall quiet evs -> responses evs = [].
Proof.
  induction 1 as [|e evs He _ IH]; [done|].
  unfold responses in *. cbn. rewrite IH. by destruct e.
Qed.

Lemma responses_success_trace (tr evs : list Event) (t : JS.number)
    (p : string) (r : Response) (gen : list string) :
  Forall quiet evs ->
  responses (tr ++ CallRekognition t :: evs
               ++ [Unlink p; Respond r; SetTimeout 60000 gen])
  = responses tr ++ [r].
Proof.
  intros Hq. unfold responses.
  rewrite omap_app. cbn. rewrite omap_app. fold (responses evs).
  by rewrite (responses_quiet evs Hq).
Qed.

(** C3, at the input where the code departs from it: the metadata of the
    upload cannot be read; the handler answers 500 and the upload is still
    in the file system, no removal having been attempted. *)
Theorem detect_keeps_upload_on_metadata_failure :
  let r := detect unreadableWorld (sampleRequest "image/png") sampleState in
  fst r = Ok tt /\
  files (snd r) !! "uploads/3f2a" = Some 900 /\
  trace (snd r)
  = [ConsoleError "Error:";
     Respond
       (Failure 500 "Error processing image"
          (External "Input file contains unsupported image format"))].
Proof. vm_compute. done. Qed.

(** C4, at the input where the code departs from it: a GIF is uploaded; the
    handler calls the detection service once and reports the service's
    failure, not a validation error. *)
Theorem detect_calls_service_for_unsupported_type :
  let r := detect gifWorld (sampleRequest "image/gif") sampleState in
  ("image/gif" ∉ allowedTypes) /\
  fst r = Ok tt /\
  externalCalls (trace (snd r)) = 1%nat /\
  responses (trace (snd r))
  = [Failure 500 "Failed to process image with AWS Rekognition"
       (External "Request has invalid image format")].
Proof.
  split; [|vm_compute; done].
  unfold allowedTypes. intros H.
  repeat (apply elem_of_cons in H as [H|H]; [discriminate H|]).
  by apply elem_of_nil in H.
Qed.

(** The client, for its part, refuses such a file before any request. *)
Lemma validateImageFile_rejects_type (file : File) :
  f_type file ∉ allowedTypes ->
  validateImageFile file
  = Invalid "Invalid file type. Please upload a JPEG or PNG image.".
Proof.
  intros H. unfold validateImageFile. by rewrite bool_decide_false.
Qed.

Lemma processFileUpload_rejected (reader : File -> option string)
    (file : File) (st : ClientState) :
  f_type file ∉ allowedTypes ->
  uploadedFile (processFileUpload reader file st) = uploadedFile st /\
  error (processFileUpload reader file st)
  = Some "Invalid file type. Please upload a JPEG or PNG image.".
Proof.
  intros H. unfold processFileUpload.
  by rewrite (validateImageFile_rejects_type file H).
Qed.

(** C6: whatever the order in which the per-person promises settle, the
    handler answers with one record per person, the record at position [i]
    being that of person [i], with [personId = i + 1]. *)
Theorem results_index_stable (w : World) (req : Request) (f : UploadedFile)
    (m : Z) (md : ImageMetadata) (Persons : option (list Person))
    (st : State) :
  file req = Some f ->
  files st !! path f = Some m ->
  sharp_metadata w (path f) = inr md ->
  rekognition_send w (path f) (confidenceThresholdOf req) = inr Persons ->
  completion w ≡ₚ seq 0 (length (default [] Persons)) ->
  exists results st',
    detect w req st = (Ok tt, st') /\
    responses (trace st') = responses (trace st) ++ [Success results md] /\
    length results = length (default [] Persons) /\
    forall i person,
      default [] Persons !! i = Some person ->
      exists r url,
        results !! i = Some r /\
        r = personResult i person url /\
        personId r = Z.of_nat i + 1.
Proof.
  intros Hf Hm Hmd Hr Hperm.
  destruct (detect_success w req f m md Persons st Hf Hm Hmd Hr Hperm)
    as (results & gen & evs & st' & Hrun & _ & Htr & Hq & Hlen & Hres).
  exists results, st'. split; [done|]. split.
  { rewrite Htr. by apply responses_success_trace. }
  split; [done|].
  intros i person Hi. destruct (Hres i person Hi) as (url & Hlook & _).
  by exists (personResult i person url), url.
Qed.

(** C8: [processPersonImage] returns the placeholder instead of raising
    when the rendering of a person fails, and the handler then still
    answers with the whole result set, the failing persons carrying the
    placeholder. *)
Theorem failing_person_gets_placeholder (w : World) (req : Request)
    (f : UploadedFile) (m : Z) (md : ImageMetadata)
    (Persons : option (list Person)) (st : State) :
  file req = Some f ->
  files st !! path f = Some m ->
  sharp_metadata w (path f) = inr md ->
  rekognition_send w (path f) (confidenceThresholdOf req) = inr Persons ->
  completion w ≡ₚ seq 0 (length (default [] Persons)) ->
  (forall person gen t st0,
     renderFails w (path f) md person ->
     exists st1,
       processPersonImage w (path f) person md gen t st0
       = (Ok (placeholderUrl w person, gen), st1) /\
       files st1 = files st0) /\
  exists results st',
    detect w req st = (Ok tt, st') /\
    responses (trace st') = responses (trace st) ++ [Success results md] /\
    length results = length (default [] Persons) /\
    forall i person,
      default [] Persons !! i = Some person ->
      renderFails w (path f) md person ->
      exists r, results !! i = Some r /\ image r = placeholderUrl w person.
Proof.
  intros Hf Hm Hmd Hr Hperm. split.
  - intros person gen t st0 Hfail.
    destruct (processPersonImage_cases w (path f) md t person gen st0)
      as [[k ->]|(Hl & He & Hw & _)].
    + by eexists.
    + destruct Hfail as [H|[H|H]]; [congruence..|].
      rewrite H in Hw. done.
  - destruct (detect_success w req f m md Persons st Hf Hm Hmd Hr Hperm)
      as (results & gen & evs & st' & Hrun & _ & Htr & Hq & Hlen & Hres).
    exists results, st'. split; [done|]. split.
    { rewrite Htr. by apply responses_success_trace. }
    split; [done|].
    intros i person Hi Hfail.
    destruct (Hres i person Hi) as (url & Hlook & _ & Hph).
    exists (personResult i person url). split; [done|]. cbn. by apply Hph.
Qed.

End HandlerClaims.

(** ** Witnesses for the handler claims *)

Lemma results_index_stable_witness :
  completion sampleWorld ≡ₚ seq 0 2 /\
  exists results st',
    detect sampleWorld (sampleRequest "image/png") sampleState = (Ok tt, st') /\
    responses (trace st')
    = responses (trace sampleState) ++ [Success results sampleMetadata] /\
    length results = 2%nat /\
    forall i person,
      [alice; bob] !! i = Some person ->
      exists r url,
        results !! i = Some r /\
        r = personResult i person url /\
        personId r = Z.of_nat i + 1.
Proof.
  split; [apply perm_swap|].
  apply (results_index_stable sampleWorld (sampleRequest "image/png")
           (sampleUpload "image/png") 900 sampleMetadata
           (Some [alice; bob]) sampleState);
    [reflexivity|reflexivity|reflexivity|reflexivity|apply perm_swap].
Defined.

Lemma failing_person_gets_placeholder_witness :
  renderFails sampleWorld "uploads/3f2a" sampleMetadata bob /\
  exists results st',
    detect sampleWorld (sampleRequest "image/png") sampleState = (Ok tt, st') /\
    length results = 2%nat /\
    exists r, results !! 1%nat = Some r /\
              image r = placeholderUrl sampleWorld bob.
Proof.
  assert (Hbob : renderFails sampleWorld "uploads/3f2a" sampleMetadata bob).
  { right; left. vm_compute. reflexivity. }
  split; [exact Hbob|].
  destruct (failing_person_gets_placeholder sampleWorld
              (sampleRequest "image/png") (sampleUpload "image/png") 900
              sampleMetadata (Some [alice; bob]) sampleState)
    as (_ & results & st' & Hrun & _ & Hlen & Hres);
    [reflexivity|reflexivity|reflexivity|reflexivity|apply perm_swap|].
  exists results, st'. split; [exact Hrun|]. split; [exact Hlen|].
  apply (Hres 1%nat bob); [reflexivity|exact Hbob].
Defined.

(** ** Deletion of artifacts *)

Section Cleanup.

Context (w : World).

Lemma append_assoc3 (a b c : string) : (a +:+ b) +:+ c = a +:+ b +:+ c.
Proof.
  induction a as [|ch a IH]; [done|].
  change (String ch ((a +:+ b) +:+ c) = String ch (a +:+ b +:+ c)).
  by rewrite IH.
Qed.

Lemma strip_prefix_Some (pre s r : string) :
  strip_prefix pre s = Some r -> s = pre +:+ r.
Proof.
  revert s. induction pre as [|a pre IH]; intros s; cbn.
  - by intros [= ->].
  - destruct s as [|b s]; [done|].
    destruct (decide (a = b)) as [->|]; [|done].
    intros H. by rewrite (IH s H).
Qed.

(** Every name listed by [readdirSync] is that of a file under [dir]. *)
Lemma readdirSync_listed (dir name : string) (st : State) :
  name ∈ omap (entry_of dir) (map_to_list (files st)).*1 ->
  exists m, files st !! path_join dir name = Some m.
Proof.
  intros H. apply list_elem_of_omap in H as (p & Hp & He).
  apply list_elem_of_fmap in Hp as ([p' m] & -> & Hpm).
  apply elem_of_map_to_list in Hpm. exists m.
  unfold entry_of in He. cbn [fst] in He.
  destruct (strip_prefix (dir +:+ "/") p') as [r|] eqn:Hs; [|done].
  destruct (has_slash r); [done|]. injection He as ->.
  apply strip_prefix_Some in Hs. rewrite append_assoc3 in Hs.
  unfold path_join. by rewrite <- Hs.
Qed.

(** [cleanupFiles] never raises; on a file that is absent it does nothing. *)
Lemma cleanupFile_absent (p : string) (st : State) :
  files st !! p = None -> cleanupFile p st = (Ok tt, st).
Proof.
  intros H. unfold cleanupFile, try_catch, bind, existsSync.
  rewrite H. by rewrite bool_decide_false by (by intros [? ?]).
Qed.

Lemma cleanupFile_removes (p : string) (st : State) :
  exists st',
    cleanupFile p st = (Ok tt, st') /\
    files st' = delete p (files st).
Proof.
  destruct (files st !! p) as [m|] eqn:H.
  - eexists. split.
    + unfold cleanupFile, try_catch, bind, existsSync, unlinkSync, emit.
      rewrite H. rewrite bool_decide_true by (by eexists). cbn.
      rewrite H. reflexivity.
    + done.
  - exists st. split; [by apply cleanupFile_absent|].
    by rewrite delete_id.
Qed.

Lemma cleanupFiles_absent (paths : list string) (st : State) :
  (forall p, p ∈ paths -> files st !! p = None) ->
  cleanupFiles paths st = (Ok tt, st).
Proof.
  induction paths as [|p paths IH]; intros Habs; [done|].
  unfold cleanupFiles. cbn [forEach]. unfold bind.
  rewrite cleanupFile_absent by (apply Habs; left).
  apply IH. intros q Hq. apply Habs. by right.
Qed.

Lemma cleanupFiles_removes (paths : list string) (st : State) :
  exists st',
    cleanupFiles paths st = (Ok tt, st') /\
    (forall p, p ∈ paths -> files st' !! p = None) /\
    (forall p, files st !! p = None -> files st' !! p = None).
Proof.
  revert st. induction paths as [|p paths IH]; intros st.
  - exists st. split; [done|]. split; [|done].
    intros p Hp. by apply elem_of_nil in Hp.
  - destruct (cleanupFile_removes p st) as (st1 & Hrun1 & Hf1).
    destruct (IH st1) as (st2 & Hrun2 & Hgone & Hkeep).
    exists st2. split.
    + unfold cleanupFiles. cbn [forEach]. unfold bind. by rewrite Hrun1.
    + split.
      * intros q Hq. apply elem_of_cons in Hq as [->|Hq]; [|by apply Hgone].
        apply Hkeep. rewrite Hf1. apply lookup_delete_eq.
      * intros q Hq. apply Hkeep. rewrite Hf1.
        destruct (decide (p = q)) as [->|Hne].
        -- apply lookup_delete_eq.
        -- by rewrite lookup_delete_ne.
Qed.

(** One iteration of the sweep never raises and only removes files; a file
    it leaves under the name it was given is not stale. *)
Lemma sweepFile_step (t : Z) (name : string) (st : State) :
  exists st',
    sweepFile w t name st = (Ok tt, st') /\
    (forall p m, files st' !! p = Some m -> files st !! p = Some m) /\
    (forall m, files st' !! path_join (processedImagesDir w) name = Some m ->
               (120000 <? t - m) = false).
Proof.
  unfold sweepFile, try_catch, bind, statSync, unlinkSync, emit, ret.
  destruct (files st !! path_join (processedImagesDir w) name) as [m|] eqn:H.
  - destruct (120000 <? t - m) eqn:Hold.
    + rewrite H. eexists. split; [reflexivity|]. cbn. split.
      * intros p m' Hp.
        destruct (decide (path_join (processedImagesDir w) name = p))
          as [<-|Hne].
        -- by rewrite lookup_delete_eq in Hp.
        -- by rewrite lookup_delete_ne in Hp.
      * intros m'. by rewrite lookup_delete_eq.
    + exists st. split; [done|]. split; [done|]. intros m'. congruence.
  - eexists. split; [reflexivity|]. cbn. split; [done|]. congruence.
Qed.

Lemma sweepFile_absent (t : Z) (name : string) (st : State) :
  files st !! path_join (processedImagesDir w) name = None ->
  exists st',
    sweepFile w t name st = (Ok tt, st') /\ files st' = files st.
Proof.
  intros H. unfold sweepFile, try_catch, bind, statSync, emit.
  rewrite H. by eexists.
Qed.

Lemma sweep_fold (t : Z) (names : list string) :
  forall st,
    exists st',
      forEach (sweepFile w t) names st = (Ok tt, st') /\
      (forall p m, files st' !! p = Some m -> files st !! p = Some m) /\
      (forall name m,
         name ∈ names ->
         files st' !! path_join (processedImagesDir w) name = Some m ->
         (120000 <? t - m) = false).
Proof.
  induction names as [|name names IH]; intros st.
  - exists st. split; [done|]. split; [done|].
    intros name m Hin. by apply elem_of_nil in Hin.
  - destruct (sweepFile_step t name st) as (st1 & Hrun1 & Hsub1 & Hfresh1).
    destruct (IH st1) as (st2 & Hrun2 & Hsub2 & Hfresh2).
    exists st2. split.
    + cbn [forEach]. unfold bind. by rewrite Hrun1.
    + split; [by auto|].
      intros name' m Hin Hm. apply elem_of_cons in Hin as [->|Hin].
      * apply Hfresh1. by apply Hsub2.
      * by eapply Hfresh2.
Qed.

(** Listed files that exist and are not stale are left alone, silently. *)
Lemma sweep_noop (t : Z) (names : list string) (st : State) :
  (forall name,
     name ∈ names ->
     exists m, files st !! path_join (processedImagesDir w) name = Some m /\
               (120000 <? t - m) = false) ->
  forEach (sweepFile w t) names st = (Ok tt, st).
Proof.
  induction names as [|name names IH]; intros Hall; [done|].
  destruct (Hall name) as (m & Hm & Hfresh); [by left|].
  cbn [forEach]. unfold bind at 1.
  assert (sweepFile w t name st = (Ok tt, st)) as ->.
  { unfold sweepFile, try_catch, bind, statSync, ret. by rewrite Hm, Hfresh. }
  apply IH. intros name' Hin. apply Hall. by right.
Qed.

Lemma periodicCleanup_unfold (t : Z) (st : State) :
  periodicCleanup w t st
  = match forEach (sweepFile w t)
            (omap (entry_of (processedImagesDir w))
               (map_to_list (files st)).*1) st with
    | (Throw e, st') =>
        emit (ConsoleError "Error during periodic cleanup:") st'
    | r => r
    end.
Proof. reflexivity. Qed.

(** The sweep never raises, and a second sweep at the same time finds
    nothing left to do. *)
Lemma periodicCleanup_idempotent (t : Z) (st : State) :
  exists st',
    periodicCleanup w t st = (Ok tt, st') /\
    (forall p, files st !! p = None -> files st' !! p = None) /\
    periodicCleanup w t st' = (Ok tt, st').
Proof.
  destruct (sweep_fold t
              (omap (entry_of (processedImagesDir w))
                 (map_to_list (files st)).*1) st)
    as (st' & Hrun & Hsub & Hfresh).
  exists st'. split; [by rewrite periodicCleanup_unfold, Hrun|]. split.
  - intros p Hp. destruct (files st' !! p) as [m|] eqn:E; [|done].
    apply Hsub in E. congruence.
  - rewrite periodicCleanup_unfold. rewrite sweep_noop; [done|].
    intros name Hin.
    pose proof Hin as Hlisted.
    apply readdirSync_listed in Hlisted as [m Hm].
    exists m. split; [done|].
    apply (Hfresh name m); [|done].
    apply list_elem_of_omap in Hin as (p & Hp & He).
    apply list_elem_of_omap. exists p. split; [|done].
    apply list_elem_of_fmap in Hp as ([p' m'] & -> & Hpm).
    apply elem_of_map_to_list in Hpm. apply Hsub in Hpm.
    apply list_elem_of_fmap. exists (p', m'). split; [done|].
    by apply elem_of_map_to_list.
Qed.

(** C9: both deletion triggers tolerate a file that is already gone.
    [cleanupFiles] on paths that no longer exist returns normally and leaves
    the state as it is; an iteration of the sweep on a name whose file no
    longer exists returns normally and leaves the file system as it is;
    and running either trigger a second time changes nothing and raises
    nothing. *)
Theorem deletion_idempotent (t : Z) (paths : list string) (name : string)
    (st : State) :
  (forall p, p ∈ paths -> files st !! p = None) ->
  files st !! path_join (processedImagesDir w) name = None ->
  cleanupFiles paths st = (Ok tt, st) /\
  (exists st', sweepFile w t name st = (Ok tt, st') /\ files st' = files st) /\
  (exists st1,
     periodicCleanup w t st = (Ok tt, st1) /\
     (forall p, p ∈ paths -> files st1 !! p = None) /\
     periodicCleanup w t st1 = (Ok tt, st1) /\
     cleanupFiles paths st1 = (Ok tt, st1)) /\
  (forall ps st0,
     exists st1,
       cleanupFiles ps st0 = (Ok tt, st1) /\
       (forall p, p ∈ ps -> files st1 !! p = None) /\
       cleanupFiles ps st1 = (Ok tt, st1)).
Proof.
  intros Habs Hname. split; [by apply cleanupFiles_absent|].
  split; [by apply sweepFile_absent|]. split.
  - destruct (periodicCleanup_idempotent t st) as (st1 & Hrun & Hkeep & Hagain).
    exists st1. split; [done|].
    assert (Hgone : forall p, p ∈ paths -> files st1 !! p = None) by auto.
    split; [done|]. split; [done|]. by apply cleanupFiles_absent.
  - intros ps st0.
    destruct (cleanupFiles_removes ps st0) as (st1 & Hrun & Hgone & _).
    exists st1. split; [done|]. split; [done|]. by apply cleanupFiles_absent.
Qed.

End Cleanup.

Lemma deletion_idempotent_witness :
  let gone := "/srv/processed-images/person_0_uuid0.png" in
  files sampleState !! gone = None /\
  cleanupFiles [gone] sampleState = (Ok tt, sampleState) /\
  exists st',
    sweepFile sampleWorld 500000 "person_0_uuid0.png" sampleState
    = (Ok tt, st') /\
    files st' = files sampleState.
Proof.
  split; [reflexivity|].
  destruct (deletion_idempotent sampleWorld 500000
              ["/srv/processed-images/person_0_uuid0.png"]
              "person_0_uuid0.png" sampleState)
    as (Hclean & Hsweep & _).
  - intros p Hp. apply list_elem_of_singleton in Hp as ->. reflexivity.
  - reflexivity.
  - split; [exact Hclean|exact Hsweep].
Defined.

(** ** The confidence threshold of a request *)

Section Threshold.

Lemma truthy_Fin (q : Q) : JS.truthy (JS.Fin q) = true <-> ~ (q == 0)%Q.
Proof.
  cbn. rewrite negb_true_iff. split.
  - intros H Hq. apply Qeq_bool_iff in Hq. congruence.
  - intros H. destruct (Qeq_bool q 0) eqn:E; [|done].
    apply Qeq_bool_iff in E. done.
Qed.

(** The form built by the client names the field [confidence_threshold],
    which the handler does not read. *)
Lemma createFormData_field_unread (image : File) (n : Z) (storedPath : string) :
  body (upload_single storedPath (createFormData image n))
    !! "confidenceThreshold" = None.
Proof.
  cbn. rewrite lookup_insert_ne by discriminate. apply lookup_empty.
Qed.

(** C10: the threshold is the number parsed from the [confidenceThreshold]
    field when that is a number other than zero, and 80 otherwise: when the
    field is absent, as in every request built by the client, which names it
    [confidence_threshold], when it does not parse, and when it parses to
    zero.  The threshold is therefore never zero. *)
Theorem confidenceThreshold_rule (req : Request) (image : File) (n : Z)
    (storedPath : string) :
  let v := parseFloat_field (body req !! "confidenceThreshold") in
  (forall q, v = JS.Fin q -> ~ (q == 0)%Q ->
             confidenceThresholdOf req = JS.Fin q) /\
  (forall s, v = JS.Inf s -> confidenceThresholdOf req = JS.Inf s) /\
  (v = JS.NaN \/ (exists q, v = JS.Fin q /\ (q == 0)%Q) ->
   confidenceThresholdOf req = JS.of_Z 80) /\
  (body req !! "confidenceThreshold" = None ->
   confidenceThresholdOf req = JS.of_Z 80) /\
  confidenceThresholdOf (upload_single storedPath (createFormData image n))
  = JS.of_Z 80 /\
  (forall q, confidenceThresholdOf req = JS.Fin q -> ~ (q == 0)%Q) /\
  confidenceThresholdOf req <> JS.NaN.
Proof.
  intros v. unfold confidenceThresholdOf, JS.or_else. fold v.
  split; [|split; [|split; [|split; [|split; [|split]]]]].
  - intros q -> Hq. by rewrite (proj2 (truthy_Fin q) Hq).
  - by intros s ->.
  - intros [->|(q & -> & Hq)]; [done|].
    destruct (JS.truthy (JS.Fin q)) eqn:E; [|done].
    apply truthy_Fin in E. done.
  - unfold v. by intros ->.
  - by rewrite createFormData_field_unread.
  - intros q. destruct (JS.truthy v) eqn:E.
    + intros ->. by apply truthy_Fin.
    + intros [= <-]. discriminate.
  - destruct (JS.truthy v) eqn:E; [|done]. by intros ->.
Qed.

Lemma confidenceThreshold_rule_witness :
  let request (fields : gmap string string) :=
    {| file := Some (sampleUpload "image/png"); body := fields |} in
  confidenceThresholdOf (request {[ "confidenceThreshold" := "85" ]})
  = JS.of_Z 85 /\
  confidenceThresholdOf (request {[ "confidenceThreshold" := "0" ]})
  = JS.of_Z 80 /\
  confidenceThresholdOf (request {[ "confidenceThreshold" := "high" ]})
  = JS.of_Z 80 /\
  confidenceThresholdOf (request {[ "confidence_threshold" := "85" ]})
  = JS.of_Z 80 /\
  confidenceThresholdOf (request ∅) = JS.of_Z 80.
Proof.
  intros request.
  pose (image := {| f_name := "site.png"; f_type := "image/png";
                    f_size := 2048 |}).
  split; [|split; [|split; [|split]]].
  - destruct (confidenceThreshold_rule
                (request {[ "confidenceThreshold" := "85" ]}) image 85
                "uploads/3f2a") as (H & _).
    apply H; [reflexivity|]. intros Hq. discriminate Hq.
  - destruct (confidenceThreshold_rule
                (request {[ "confidenceThreshold" := "0" ]}) image 85
                "uploads/3f2a") as (_ & _ & H & _).
    apply H. right. exists 0%Q. split; reflexivity.
  - destruct (confidenceThreshold_rule
                (request {[ "confidenceThreshold" := "high" ]}) image 85
                "uploads/3f2a") as (_ & _ & H & _).
    apply H. left. reflexivity.
  - destruct (confidenceThreshold_rule
                (request {[ "confidence_threshold" := "85" ]}) image 85
                "uploads/3f2a") as (_ & _ & _ & H & _).
    apply H. reflexivity.
  - destruct (confidenceThreshold_rule (request ∅) image 85 "uploads/3f2a")
      as (_ & _ & _ & H & _).
    apply H. reflexivity.
Defined.

End Threshold.

(** ** Worked examples *)

Section Examples.

Example b64_one_tenth :
  JS.b64 (1 # 10) = JS.Fin (3602879701896397 # 36028797018963968).
Proof. vm_compute. reflexivity. Qed.

Example parseFloat_samples :
  parseFloat "80" = JS.of_Z 80 /\
  parseFloat "  -12.5e1xyz" = JS.of_Z (-125) /\
  parseFloat ".5" = JS.Fin (1 # 2) /\
  parseFloat "5." = JS.of_Z 5 /\
  parseFloat "1e" = JS.of_Z 1 /\
  parseFloat "1e-400" = JS.of_Z 0 /\
  parseFloat "-Infinity" = JS.Inf true /\
  parseFloat "." = JS.NaN /\
  parseFloat "high" = JS.NaN /\
  parseFloat_field None = JS.NaN.
Proof. vm_compute. repeat split. Qed.

(** A hard hat detected with confidence 90.4: the server reports
    [Detected] with 90 whatever the threshold; at threshold 95 the client
    shows it as [Indeterminate], and the rectangle is drawn in yellow. *)
Example alice_hardHat :
  let r := personResult 0 alice "" in
  hardHat r = {| status := Detected; confidence := JS.of_Z 90 |} /\
  hardHat (processDetectionResult (JS.of_Z 80) r)
  = {| status := Detected; confidence := JS.of_Z 90 |} /\
  hardHat (processDetectionResult (JS.of_Z 95) r)
  = {| status := Indeterminate; confidence := JS.of_Z 90 |} /\
  map d_color (drawPerson sampleMetadata (JS.of_Z 80) alice) = ["#00FF00"] /\
  map d_color (drawPerson sampleMetadata (JS.of_Z 95) alice) = ["#FFFF00"].
Proof. vm_compute. repeat split. Qed.

(** The sample request: the second person settles first; the records keep
    the order of the persons, the person with the empty box gets the
    placeholder, and the upload is gone. *)
Example sample_request_run :
  let r := detect sampleWorld (sampleRequest "image/png") sampleState in
  fst r = Ok tt /\
  files (snd r) !! "uploads/3f2a" = None /\
  files (snd r) !! "/srv/processed-images/person_0_uuid0.png" = Some 1000 /\
  map (fun res => (personId res, image res))
    (match responses (trace (snd r)) with
     | [Success results _] => results
     | _ => []
     end)
  = [(1, "https://detection.gulfconsulting.com.au/processed-images/person_0_uuid0.png");
     (2, "https://detection.gulfconsulting.com.au/placeholder.svg?height=120&width=120&text=Person+1")].
Proof. vm_compute. repeat split. Qed.

(** A file that is two minutes old is swept, a recent one is kept, and the
    sweep is silent about files that are already gone. *)
Example sweep_run :
  let st := {| files := {[ "/srv/processed-images/old.png" := 0;
                           "/srv/processed-images/new.png" := 400000;
                           "uploads/3f2a" := 0 ]};
               uuids := 0; trace := [] |} in
  let r := periodicCleanup sampleWorld 500000 st in
  fst r = Ok tt /\
  files (snd r) !! "/srv/processed-images/old.png" = None /\
  files (snd r) !! "/srv/processed-images/new.png" = Some 400000 /\
  files (snd r) !! "uploads/3f2a" = Some 0 /\
  trace (snd (periodicCleanup sampleWorld 500000 (snd r))) = trace (snd r).
Proof. vm_compute. repeat split. Qed.

End Examples.

(** * Further properties *)

(** ** Every exit path of [/api/detect] *)

Section ExitPaths.

Context (w : World).

Lemma responses_app (l1 l2 : list Event) :
  responses (l1 ++ l2) = responses l1 ++ responses l2.
Proof. apply omap_app. Qed.

Lemma externalCalls_app (l1 l2 : list Event) :
  externalCalls (l1 ++ l2) = (externalCalls l1 + externalCalls l2)%nat.
Proof. unfold externalCalls. by rewrite List.filter_app, length_app. Qed.

Lemma externalCalls_quiet (evs : list Event) :
  Forall quiet evs -> externalCalls evs = 0%nat.
Proof.
  induction 1 as [|e evs He _ IH]; [done|].
  unfold externalCalls in *. cbn. by destruct e.
Qed.

(** No file reached the handler: [req.file] is [undefined]. *)
Lemma detect_no_file (req : Request) (st : State) :
  file req = None ->
  detect w req st
  = (Ok tt,
     {| files := files st; uuids := uuids st;
        trace := trace st
                   ++ [ConsoleError "Error:";
                       Respond
                         (Failure 500 "Error processing image" TypeError)] |}).
Proof.
  intros Hf. unfold detect, try_catch, bind, throw, emit. rewrite Hf. cbn.
  by rewrite <- app_assoc.
Qed.

(** The stored upload has disappeared before the handler reads it. *)
Lemma detect_upload_missing (req : Request) (f : UploadedFile) (st : State) :
  file req = Some f ->
  files st !! path f = None ->
  detect w req st
  = (Ok tt,
     {| files := files st; uuids := uuids st;
        trace := trace st
                   ++ [ConsoleError "Error:";
                       Respond
                         (Failure 500 "Error processing image"
                            (ENOENT (path f)))] |}).
Proof.
  intros Hf Hm.
  unfold detect, try_catch, bind, readFileSync, throw, emit, ret.
  rewrite Hf. cbn. rewrite Hm. cbn. by rewrite <- app_assoc.
Qed.

(** X1: whatever the request, the state and the collaborators do, the
    handler returns normally and sends exactly one response, provided every
    per-person promise settles; it asks the detection service at most
    once. *)
Theorem detect_answers_once (req : Request) (st : State) :
  completion w ≡ₚ seq 0 (length (personsFor w req)) ->
  exists r st',
    detect w req st = (Ok tt, st') /\
    responses (trace st') = responses (trace st) ++ [r] /\
    (externalCalls (trace st') <= S (externalCalls (trace st)))%nat.
Proof.
  intros Hperm. unfold personsFor in Hperm.
  destruct (file req) as [f|] eqn:Hf.
  - destruct (files st !! path f) as [m|] eqn:Hm.
    + destruct (sharp_metadata w (path f)) as [e|md] eqn:Hmd.
      * eexists _, _. split; [by eapply detect_metadata_failure|].
        cbn [trace files]. rewrite responses_app, externalCalls_app. cbn.
        split; [done|lia].
      * destruct (rekognition_send w (path f) (confidenceThresholdOf req))
          as [e|Persons] eqn:Hr.
        -- eexists _, _. split; [by eapply detect_rekognition_failure|].
           cbn [trace files]. rewrite responses_app, externalCalls_app. cbn.
           split; [done|lia].
        -- destruct (detect_success w req f m md Persons st Hf Hm Hmd Hr Hperm)
             as (results & gen & evs & st' & Hrun & _ & Htr & Hq & _).
           exists (Success results md), st'. split; [done|].
           rewrite Htr. split; [by apply responses_success_trace|].
           rewrite externalCalls_app.
           change (CallRekognition (confidenceThresholdOf req) :: evs ++ _)
             with ([CallRekognition (confidenceThresholdOf req)]
                     ++ evs ++ [Unlink (path f); Respond (Success results md);
                                SetTimeout 60000 gen]).
           rewrite !externalCalls_app, (externalCalls_quiet evs Hq). cbn. lia.
    + eexists _, _. split; [by eapply detect_upload_missing|].
      cbn [trace files]. rewrite responses_app, externalCalls_app. cbn. split; [done|lia].
  - eexists _, _. split; [by eapply detect_no_file|].
    cbn [trace files]. rewrite responses_app, externalCalls_app. cbn. split; [done|lia].
Qed.

(** X2: the detection service is asked only once the upload has been read
    and its metadata obtained; a failure before that point is reported as
    "Error processing image" with the file system untouched, and no service
    call is made. *)
Theorem detect_fails_before_service (req : Request) (st : State) :
  (file req = None \/
   (exists f, file req = Some f /\
              (files st !! path f = None \/
               exists e, sharp_metadata w (path f) = inl e))) ->
  exists cause st',
    detect w req st = (Ok tt, st') /\
    responses (trace st')
    = responses (trace st) ++ [Failure 500 "Error processing image" cause] /\
    externalCalls (trace st') = externalCalls (trace st) /\
    files st' = files st.
Proof.
  intros [Hf|(f & Hf & [Hm|[e He]])].
  - eexists _, _. split; [by apply detect_no_file|].
    cbn [trace files]. rewrite responses_app, externalCalls_app. cbn.
    split; [done|]. split; [lia|done].
  - eexists _, _. split; [by eapply detect_upload_missing|].
    cbn [trace files]. rewrite responses_app, externalCalls_app. cbn.
    split; [done|]. split; [lia|done].
  - destruct (files st !! path f) as [m|] eqn:Hm.
    + eexists _, _. split; [by eapply detect_metadata_failure|].
      cbn [trace files]. rewrite responses_app, externalCalls_app. cbn.
      split; [done|]. split; [lia|done].
    + eexists _, _. split; [by eapply detect_upload_missing|].
      cbn [trace files]. rewrite responses_app, externalCalls_app. cbn.
      split; [done|]. split; [lia|done].
Qed.

End ExitPaths.

(** ** The files of a request *)

Section Artifacts.

Context (w : World) (imagePath : string) (md : ImageMetadata)
  (threshold : JS.number).

Lemma written_app (l1 l2 : list Event) :
  written (l1 ++ l2) = written l1 ++ written l2.
Proof. apply omap_app. Qed.

Lemma processPersonImage_tracked (person : Person) (gen : list string)
    (st : State) :
  exists url gen' st' evs,
    processPersonImage w imagePath person md gen threshold st
    = (Ok (url, gen'), st') /\
    trace st' = trace st ++ evs /\
    gen' = gen ++ written evs /\
    (forall p, files st' !! p
               = if bool_decide (p ∈ written evs) then Some (now w)
                 else files st !! p) /\
    (forall p, p ∈ written evs ->
               exists uuid, p = personFilePath w person uuid) /\
    (url = placeholderUrl w person \/
     exists uuid,
       url = generatedUrl w person uuid /\
       personFilePath w person uuid ∈ written evs).
Proof.
  destruct (processPersonImage_cases w imagePath md threshold person gen st)
    as [[k ->]|(_ & _ & _ & ->)].
  - eexists _, _, _, [ConsoleError _]. split; [done|]. cbn.
    split; [done|]. split; [by rewrite app_nil_r|]. split; [done|].
    split; [|by left]. intros p Hp. by apply elem_of_nil in Hp.
  - eexists _, _, _, [WriteFile _]. split; [done|]. cbn.
    split; [done|]. split; [done|]. split; [|split].
    + intros p. destruct (decide (p = personFilePath w person (uuidv4 w (uuids st))))
        as [->|Hne].
      * rewrite lookup_insert_eq, bool_decide_true; [done|]. by left.
      * rewrite lookup_insert_ne by done. rewrite bool_decide_false; [done|].
        intros Hp. by apply list_elem_of_singleton in Hp.
    + intros p Hp. apply list_elem_of_singleton in Hp as ->. by eexists.
    + right. eexists. split; [done|]. by left.
Qed.

Lemma linked_mono (persons : list Person) (gen extra : list string)
    (slots : list (option PersonResult)) :
  linked w persons gen slots -> linked w persons (gen ++ extra) slots.
Proof.
  intros H j r Hj. destruct (H j r Hj) as (person & Hp & [Hph|(uuid & Hu & Hin)]).
  - exists person. split; [done|]. by left.
  - exists person. split; [done|]. right. exists uuid. split; [done|].
    apply elem_of_app. by left.
Qed.

Lemma tasks_tracked (persons : list Person) (order : list nat) :
  forall (acc : list string * list (option PersonResult)) (st : State),
    linked w persons (fst acc) (snd acc) ->
    exists acc' st' evs,
      foldM (personTask w imagePath md threshold persons) acc order st
      = (Ok acc', st') /\
      trace st' = trace st ++ evs /\
      fst acc' = fst acc ++ written evs /\
      (forall p, files st' !! p
                 = if bool_decide (p ∈ written evs) then Some (now w)
                   else files st !! p) /\
      (forall p, p ∈ written evs -> personFile w persons p) /\
      linked w persons (fst acc') (snd acc').
Proof.
  induction order as [|idx order IH]; intros acc st Hlink.
  - exists acc, st, []. cbn. rewrite !app_nil_r.
    repeat split; try done. intros p Hp. by apply elem_of_nil in Hp.
  - cbn [foldM]. unfold bind at 1. unfold personTask at 1.
    destruct (persons !! idx) as [person|] eqn:Hp.
    + destruct (processPersonImage_tracked person (fst acc) st)
        as (url & gen1 & st1 & evs1 & Hrun & Htr1 & Hgen1 & Hf1 & Hw1 & Hurl).
      unfold bind at 1. rewrite Hrun. cbn [ret fst snd].
      destruct (IH (gen1, <[idx:=Some (personResult idx person url)]> (snd acc))
                  st1)
        as (acc2 & st2 & evs2 & Hrun2 & Htr2 & Hgen2 & Hf2 & Hw2 & Hlink2).
      { cbn [fst snd]. subst gen1. intros j r Hj.
        destruct (decide (idx = j)) as [->|Hne].
        - destruct (decide (j < length (snd acc))%nat) as [Hlt|Hge].
          + rewrite list_lookup_insert_eq in Hj by done. injection Hj as <-.
            exists person. split; [done|]. cbn [image personResult].
            destruct Hurl as [->|(uuid & -> & Hin)]; [by left|].
            right. exists uuid. split; [done|]. apply elem_of_app. by right.
          + rewrite list_insert_ge in Hj by lia.
            by apply (linked_mono persons (fst acc) (written evs1) _ Hlink).
        - rewrite list_lookup_insert_ne in Hj by done.
          by apply (linked_mono persons (fst acc) (written evs1) _ Hlink). }
      exists acc2, st2, (evs1 ++ evs2). split; [done|].
      cbn [fst] in Hgen2.
      split; [by rewrite Htr2, Htr1, app_assoc|].
      split; [by rewrite Hgen2, Hgen1, written_app, app_assoc|].
      split; [|split; [|done]].
      * intros p. rewrite Hf2, Hf1, written_app.
        destruct (bool_decide (p ∈ written evs2)) eqn:E2.
        -- apply bool_decide_eq_true in E2.
           rewrite bool_decide_true; [done|]. apply elem_of_app. by right.
        -- apply bool_decide_eq_false in E2.
           destruct (bool_decide (p ∈ written evs1)) eqn:E1.
           ++ apply bool_decide_eq_true in E1.
              rewrite bool_decide_true; [done|]. apply elem_of_app. by left.
           ++ apply bool_decide_eq_false in E1.
              rewrite bool_decide_false; [done|].
              intros H. apply elem_of_app in H as [H|H]; done.
      * intros p Hin. rewrite written_app in Hin.
        apply elem_of_app in Hin as [Hin|Hin]; [|by apply Hw2].
        destruct (Hw1 p Hin) as [uuid ->]. exists person, uuid.
        split; [|done]. by eapply list_elem_of_lookup_2.
    + cbn [ret]. by apply IH.
Qed.

Lemma settled_Some {A} (slots : list (option A)) (l : list A) :
  settled slots = Some l -> slots = map Some l.
Proof.
  revert l. induction slots as [|[a|] slots IH]; intros l; cbn.
  - by intros [= <-].
  - destruct (settled slots) as [l'|]; [|done].
    intros [= <-]. cbn. by rewrite (IH l').
  - done.
Qed.

Lemma promiseAllPersons_tracked (persons : list Person) (st : State) :
  completion w ≡ₚ seq 0 (length persons) ->
  exists results gen st' evs,
    promiseAllPersons w imagePath md threshold persons st
    = (Ok (results, gen), st') /\
    trace st' = trace st ++ evs /\
    Forall quiet evs /\
    gen = written evs /\
    (forall p, files st' !! p
               = if bool_decide (p ∈ gen) then Some (now w)
                 else files st !! p) /\
    (forall p, p ∈ gen -> personFile w persons p) /\
    linked w persons gen (map Some results).
Proof.
  intros Hperm.
  destruct (promiseAllPersons_ordered w imagePath md threshold persons st Hperm)
    as (results & gen & st' & Hrun & _ & _ & _ & evs0 & Htr0 & Hq).
  destruct (tasks_tracked persons (completion w)
              ([], replicate (length persons) None) st)
    as (acc & st2 & evs & Hfold & Htr & Hgen & Hfiles & Hw & Hlink).
  { intros j r Hj. cbn in Hj. apply lookup_replicate in Hj as [? _]. done. }
  unfold promiseAllPersons, bind in Hrun. rewrite Hfold in Hrun.
  destruct (settled (snd acc)) as [rs|] eqn:Hset; [|done].
  cbn in Hrun. injection Hrun as <- <- <-.
  cbn [fst app] in Hgen.
  exists rs, (fst acc), st2, evs. split.
  { unfold promiseAllPersons, bind. by rewrite Hfold, Hset. }
  split; [done|]. split.
  { rewrite Htr in Htr0. apply app_inv_head in Htr0. by subst. }
  split; [done|]. rewrite Hgen. rewrite Hgen in Hlink.
  split; [done|]. split; [done|].
  by rewrite <- (settled_Some _ _ Hset).
Qed.

End Artifacts.

Section RequestFiles.

Context (w : World).

Lemma detect_success_tracked (req : Request) (f : UploadedFile) (m : Z)
    (md : ImageMetadata) (Persons : option (list Person)) (st : State) :
  file req = Some f ->
  files st !! path f = Some m ->
  sharp_metadata w (path f) = inr md ->
  rekognition_send w (path f) (confidenceThresholdOf req) = inr Persons ->
  completion w ≡ₚ seq 0 (length (default [] Persons)) ->
  exists results gen evs st',
    detect w req st = (Ok tt, st') /\
    trace st'
    = trace st
        ++ CallRekognition (confidenceThresholdOf req)
        :: evs
        ++ [Unlink (path f); Respond (Success results md);
            SetTimeout 60000 gen] /\
    Forall quiet evs /\
    gen = written evs /\
    (forall p, files st' !! p
               = if bool_decide (p = path f) then None
                 else if bool_decide (p ∈ gen) then Some (now w)
                      else files st !! p) /\
    (forall p, p ∈ gen -> personFile w (default [] Persons) p) /\
    linked w (default [] Persons) gen (map Some results).
Proof.
  intros Hf Hm Hmd Hr Hperm.
  set (st1 := {| files := files st; uuids := uuids st;
                 trace := trace st
                            ++ [CallRekognition (confidenceThresholdOf req)] |}).
  destruct (promiseAllPersons_tracked w (path f) md (confidenceThresholdOf req)
              (default [] Persons) st1 Hperm)
    as (results & gen & st2 & evs & Hrun & Htr & Hq & Hgen & Hfiles & Hw & Hlink).
  assert (Hup : is_Some (files st2 !! path f)).
  { rewrite Hfiles. destruct (bool_decide _); [by eexists|].
    unfold st1. cbn. by eexists. }
  destruct Hup as [m' Hm'].
  eexists results, gen, evs, _. split.
  - unfold detect, try_catch, bind, readFileSync, lift_result, throw, emit,
      ret, unlinkSync.
    rewrite Hf. cbn. rewrite Hm, Hmd. cbn. rewrite Hr. cbn.
    fold st1. rewrite Hrun. cbn. rewrite Hm'. cbn. reflexivity.
  - cbn [trace files]. split.
    { rewrite Htr. unfold st1. cbn. by rewrite <- !app_assoc. }
    split; [done|]. split; [done|]. split; [|done].
    intros p. destruct (decide (p = path f)) as [->|Hne].
    + by rewrite lookup_delete_eq, bool_decide_true.
    + rewrite lookup_delete_ne by done. rewrite bool_decide_false by done.
      by rewrite Hfiles.
Qed.

Lemma cleanupFiles_lookup (paths : list string) (st : State) :
  exists st',
    cleanupFiles paths st = (Ok tt, st') /\
    forall p, files st' !! p
              = if bool_decide (p ∈ paths) then None else files st !! p.
Proof.
  revert st. induction paths as [|q paths IH]; intros st.
  - exists st. split; [done|]. intros p.
    rewrite bool_decide_false; [done|]. intros H. by apply elem_of_nil in H.
  - destruct (cleanupFile_removes q st) as (st1 & Hrun1 & Hf1).
    destruct (IH st1) as (st2 & Hrun2 & Hf2).
    exists st2. split.
    + unfold cleanupFiles. cbn [forEach]. unfold bind. by rewrite Hrun1.
    + intros p. rewrite Hf2, Hf1.
      destruct (bool_decide (p ∈ paths)) eqn:E.
      * apply bool_decide_eq_true in E.
        rewrite bool_decide_true; [done|]. by right.
      * apply bool_decide_eq_false in E.
        destruct (decide (p = q)) as [->|Hne].
        -- rewrite lookup_delete_eq, bool_decide_true; [done|]. by left.
        -- rewrite lookup_delete_ne by done.
           rewrite bool_decide_false; [done|].
           intros H. apply elem_of_cons in H as [H|H]; done.
Qed.



(** X5: the records of a successful response are numbered 1, 2, ..., N in
    order, so no two of them share a [personId]. *)
Theorem personIds_consecutive (req : Request) (f : UploadedFile) (m : Z)
    (md : ImageMetadata) (Persons : option (list Person)) (st : State) :
  file req = Some f ->
  files st !! path f = Some m ->
  sharp_metadata w (path f) = inr md ->
  rekognition_send w (path f) (confidenceThresholdOf req) = inr Persons ->
  completion w ≡ₚ seq 0 (length (default [] Persons)) ->
  exists results st',
    detect w req st = (Ok tt, st') /\
    responses (trace st') = responses (trace st) ++ [Success results md] /\
    personId <$> results
    = (fun i => Z.of_nat i + 1) <$> seq 0 (length (default [] Persons)) /\
    NoDup (personId <$> results).
Proof.
  intros Hf Hm Hmd Hr Hperm.
  destruct (detect_success w req f m md Persons st Hf Hm Hmd Hr Hperm)
    as (results & gen & evs & st' & Hrun & _ & Htr & Hq & Hlen & Hres).
  exists results, st'. split; [done|]. split.
  { rewrite Htr. by apply responses_success_trace. }
  assert (Hids : personId <$> results
                 = (fun i => Z.of_nat i + 1)
                     <$> seq 0 (length (default [] Persons))).
  { apply list_eq. intros i. rewrite !list_lookup_fmap.
    destruct (decide (i < length (default [] Persons))%nat) as [Hlt|Hge].
    - destruct (lookup_lt_is_Some_2 _ _ Hlt) as [person Hp].
      destruct (Hres i person Hp) as (url & -> & _).
      rewrite lookup_seq_lt by done. done.
    - rewrite (lookup_ge_None_2 results) by lia.
      rewrite (lookup_ge_None_2 (seq _ _)); [done|]. rewrite length_seq. lia. }
  split; [done|]. rewrite Hids.
  apply NoDup_fmap_2; [|apply NoDup_seq].
  intros a b H. lia.
Qed.

End RequestFiles.

Section Footprint.

Context (w : World).

(** X6: on every exit path the handler leaves alone every file other than
    the upload and the person files of the persons found: it creates,
    changes and removes nothing else. *)
Theorem detect_touches_only_its_files (req : Request) (st : State) :
  completion w ≡ₚ seq 0 (length (personsFor w req)) ->
  exists st',
    detect w req st = (Ok tt, st') /\
    forall p,
      (forall f, file req = Some f -> p <> path f) ->
      ~ personFile w (personsFor w req) p ->
      files st' !! p = files st !! p.
Proof.
  intros Hperm. unfold personsFor in *.
  destruct (file req) as [f|] eqn:Hf.
  - destruct (files st !! path f) as [m|] eqn:Hm.
    + destruct (sharp_metadata w (path f)) as [e|md] eqn:Hmd.
      * eexists. split; [by eapply detect_metadata_failure|]. done.
      * destruct (rekognition_send w (path f) (confidenceThresholdOf req))
          as [e|Persons] eqn:Hr.
        -- eexists. split; [by eapply detect_rekognition_failure|].
           intros p Hp _. cbn. rewrite lookup_delete_ne; [done|].
           intros Heq. by apply (Hp f).
        -- destruct (detect_success_tracked w req f m md Persons st
                       Hf Hm Hmd Hr Hperm)
             as (results & gen & evs & st' & Hrun & _ & _ & _ & Hfiles & Hw & _).
           exists st'. split; [done|]. intros p Hp Hnot.
           rewrite Hfiles. rewrite bool_decide_false by (by apply Hp).
           rewrite bool_decide_false; [done|].
           intros Hin. apply Hnot. by apply Hw.
    + eexists. split; [by eapply detect_upload_missing|]. done.
  - eexists. split; [by eapply detect_no_file|]. done.
Qed.

End Footprint.

(** ** Witnesses for the handler properties *)

Lemma sample_upload_not_person_file (person : Person) (uuid : string) :
  path (sampleUpload "image/png") <> personFilePath sampleWorld person uuid.
Proof. intros H. vm_compute in H. discriminate H. Qed.

Lemma detect_answers_once_witness :
  completion sampleWorld ≡ₚ seq 0 2 /\
  exists r st',
    detect sampleWorld (sampleRequest "image/png") sampleState = (Ok tt, st') /\
    responses (trace st') = responses (trace sampleState) ++ [r] /\
    (externalCalls (trace st') <= S (externalCalls (trace sampleState)))%nat.
Proof.
  split; [apply perm_swap|].
  apply (detect_answers_once sampleWorld (sampleRequest "image/png")
           sampleState).
  apply perm_swap.
Defined.

Lemma detect_fails_before_service_witness :
  sharp_metadata unreadableWorld "uploads/3f2a"
  = inl (External "Input file contains unsupported image format") /\
  exists cause st',
    detect unreadableWorld (sampleRequest "image/png") sampleState
    = (Ok tt, st') /\
    responses (trace st')
    = responses (trace sampleState)
        ++ [Failure 500 "Error processing image" cause] /\
    externalCalls (trace st') = externalCalls (trace sampleState) /\
    files st' = files sampleState.
Proof.
  split; [reflexivity|].
  apply (detect_fails_before_service unreadableWorld
           (sampleRequest "image/png") sampleState).
  right. exists (sampleUpload "image/png"). split; [reflexivity|].
  right. eexists. reflexivity.
Defined.



Lemma personIds_consecutive_witness :
  exists results st',
    detect sampleWorld (sampleRequest "image/png") sampleState = (Ok tt, st') /\
    responses (trace st')
    = responses (trace sampleState) ++ [Success results sampleMetadata] /\
    personId <$> results = (fun i => Z.of_nat i + 1) <$> seq 0 2 /\
    NoDup (personId <$> results).
Proof.
  apply (personIds_consecutive sampleWorld (sampleRequest "image/png")
           (sampleUpload "image/png") 900 sampleMetadata
           (Some [alice; bob]) sampleState);
    [reflexivity|reflexivity|reflexivity|reflexivity|apply perm_swap].
Defined.

Lemma detect_touches_only_its_files_witness :
  completion sampleWorld ≡ₚ seq 0 2 /\
  exists st',
    detect sampleWorld (sampleRequest "image/png") sampleState = (Ok tt, st') /\
    forall p,
      (forall f, file (sampleRequest "image/png") = Some f -> p <> path f) ->
      ~ personFile sampleWorld
          (personsFor sampleWorld (sampleRequest "image/png")) p ->
      files st' !! p = files sampleState !! p.
Proof.
  split; [apply perm_swap|].
  apply (detect_touches_only_its_files sampleWorld
           (sampleRequest "image/png") sampleState).
  apply perm_swap.
Defined.

(** ** What the sweeps remove *)

Section Sweeps.

Context (w : World).

Lemma entry_of_join (dir p name : string) :
  entry_of dir p = Some name -> p = path_join dir name.
Proof.
  unfold entry_of.
  destruct (strip_prefix (dir +:+ "/") p) as [r|] eqn:Hs; [|done].
  destruct (has_slash r); [done|]. intros [= ->].
  apply strip_prefix_Some in Hs. by rewrite append_assoc3 in Hs.
Qed.

(** The paths visited by a sweep are the files directly under the
    directory. *)
Lemma listed_iff (st : State) (p : string) :
  p ∈ path_join (processedImagesDir w)
        <$> omap (entry_of (processedImagesDir w)) (map_to_list (files st)).*1
  <-> is_Some (files st !! p) /\ inProcessedDir w p = true.
Proof.
  unfold inProcessedDir. rewrite bool_decide_eq_true. split.
  - intros H. apply list_elem_of_fmap in H as (name & -> & H).
    apply list_elem_of_omap in H as (q & Hq & He).
    apply list_elem_of_fmap in Hq as ([q' m] & -> & Hqm).
    apply elem_of_map_to_list in Hqm. cbn [fst] in He.
    pose proof (entry_of_join _ _ _ He) as <-.
    split; by eexists.
  - intros [[m Hm] [name He]].
    apply list_elem_of_fmap. exists name.
    split; [by apply entry_of_join|].
    apply list_elem_of_omap. exists p. split; [|done].
    apply list_elem_of_fmap. exists (p, m). split; [done|].
    by apply elem_of_map_to_list.
Qed.

Lemma forEach_delete (step : string -> M unit) (del : Z -> bool) :
  (forall name st,
     exists st',
       step name st = (Ok tt, st') /\
       forall p,
         files st' !! p
         = match files st !! p with
           | Some m =>
               if bool_decide (p = path_join (processedImagesDir w) name)
                  && del m
               then None else Some m
           | None => None
           end) ->
  forall names st,
    exists st',
      forEach step names st = (Ok tt, st') /\
      forall p,
        files st' !! p
        = match files st !! p with
          | Some m =>
              if bool_decide
                   (p ∈ path_join (processedImagesDir w) <$> names)
                 && del m
              then None else Some m
          | None => None
          end.
Proof.
  intros Hstep names. induction names as [|name names IH]; intros st.
  - exists st. split; [done|]. intros p. destruct (files st !! p); [|done].
    rewrite bool_decide_false; [done|]. intros H. by apply elem_of_nil in H.
  - destruct (Hstep name st) as (st1 & Hrun1 & Hf1).
    destruct (IH st1) as (st2 & Hrun2 & Hf2).
    exists st2. split.
    + cbn [forEach]. unfold bind. by rewrite Hrun1.
    + intros p. rewrite Hf2, Hf1. rewrite fmap_cons.
      destruct (files st !! p) as [m|]; [|done].
      destruct (del m) eqn:Hd; rewrite ?andb_false_r, ?andb_true_r.
      * destruct (decide (p = path_join (processedImagesDir w) name))
          as [->|Hne].
        -- rewrite bool_decide_true by done.
           rewrite bool_decide_true; [done|]. by left.
        -- rewrite bool_decide_false by done.
           rewrite Hd, andb_true_r.
           destruct (decide (p ∈ path_join (processedImagesDir w) <$> names))
             as [Hin|Hnin].
           ++ rewrite !bool_decide_true; [done| |done]. by right.
           ++ rewrite !bool_decide_false; [done| |done].
              intros H. apply elem_of_cons in H as [H|H]; done.
      * by rewrite Hd, andb_false_r.
Qed.

Lemma sweepFile_lookup (t : Z) (name : string) (st : State) :
  exists st',
    sweepFile w t name st = (Ok tt, st') /\
    forall p,
      files st' !! p
      = match files st !! p with
        | Some m =>
            if bool_decide (p = path_join (processedImagesDir w) name)
               && (120000 <? t - m)
            then None else Some m
        | None => None
        end.
Proof.
  unfold sweepFile, try_catch, bind, statSync, unlinkSync, emit, ret.
  destruct (files st !! path_join (processedImagesDir w) name) as [m|] eqn:H.
  - destruct (120000 <? t - m) eqn:Hold.
    + rewrite H. eexists. split; [reflexivity|]. cbn. intros p.
      destruct (decide (p = path_join (processedImagesDir w) name))
        as [->|Hne].
      * by rewrite lookup_delete_eq, H, bool_decide_true, Hold.
      * rewrite lookup_delete_ne by done.
        destruct (files st !! p); [|done]. by rewrite bool_decide_false.
    + exists st. split; [done|]. intros p.
      destruct (files st !! p) as [m'|] eqn:Hp; [|done].
      destruct (decide (p = path_join (processedImagesDir w) name))
        as [->|Hne].
      * assert (m' = m) as -> by congruence.
        by rewrite Hold, andb_false_r.
      * by rewrite bool_decide_false.
  - eexists. split; [reflexivity|]. cbn. intros p.
    destruct (files st !! p) as [m'|] eqn:Hp; [|done].
    rewrite bool_decide_false; [done|]. congruence.
Qed.

Lemma removeProcessed_lookup (name : string) (st : State) :
  exists st',
    removeProcessed w name st = (Ok tt, st') /\
    forall p,
      files st' !! p
      = match files st !! p with
        | Some m =>
            if bool_decide (p = path_join (processedImagesDir w) name) && true
            then None else Some m
        | None => None
        end.
Proof.
  unfold removeProcessed, try_catch, bind, unlinkSync, emit, ret.
  destruct (files st !! path_join (processedImagesDir w) name) as [m|] eqn:H.
  - eexists. split; [reflexivity|]. cbn. intros p.
    destruct (decide (p = path_join (processedImagesDir w) name)) as [->|Hne].
    + by rewrite lookup_delete_eq, H, bool_decide_true.
    + rewrite lookup_delete_ne by done.
      destruct (files st !! p); [|done]. by rewrite bool_decide_false.
  - eexists. split; [reflexivity|]. cbn. intros p.
    destruct (files st !! p) as [m'|] eqn:Hp; [|done].
    rewrite bool_decide_false; [done|]. congruence.
Qed.



End Sweeps.

(** ** What is drawn and what is shown *)

Section Display.

Lemma flat_map_nested {A B C} (f : B -> list C) (g : A -> list B)
    (l : list A) :
  flat_map (fun a => flat_map f (g a)) l = flat_map f (flat_map g l).
Proof.
  induction l as [|a l IH]; cbn; [done|].
  by rewrite IH, flat_map_app.
Qed.

Lemma drawEquipment_elem (md : ImageMetadata) (t : JS.number)
    (eq : EquipmentDetection) (d : Drawn) :
  d ∈ drawEquipment md t eq
  <-> exists box color,
        eq_BoundingBox eq = Some box /\
        colorOf (equipmentStatus (eq_Confidence eq) t) = Some color /\
        d = {| d_color := color; d_rect := equipmentRect box md |}.
Proof.
  unfold drawEquipment.
  destruct (eq_BoundingBox eq) as [box|].
  - destruct (equipmentStatus (eq_Confidence eq) t); cbn; split.
    all: try (intros H; apply list_elem_of_singleton in H as ->;
              by eexists _, _).
    all: try (intros (b & c & [= <-] & [= <-] & ->);
              by apply list_elem_of_singleton).
    all: try (intros H; by apply elem_of_nil in H).
    all: intros (b & c & _ & H & _); discriminate H.
  - split; [intros H; by apply elem_of_nil in H|].
    intros (b & c & H & _). discriminate H.
Qed.

(** X9: the rectangles painted for a person are those of the equipment
    detections that carry a bounding box and are classified [Detected]
    (green) or [Indeterminate] (yellow), in the order of the detections;
    nothing is painted for any other detection. *)
Theorem drawPerson_draws (md : ImageMetadata) (t : JS.number)
    (person : Person) :
  drawPerson md t person
  = flat_map (drawEquipment md t) (detectionsOf person) /\
  (forall d,
     d ∈ drawPerson md t person
     <-> exists eq box color,
           eq ∈ detectionsOf person /\
           eq_BoundingBox eq = Some box /\
           colorOf (equipmentStatus (eq_Confidence eq) t) = Some color /\
           d = {| d_color := color; d_rect := equipmentRect box md |}) /\
  (length (drawPerson md t person) <= length (detectionsOf person))%nat.
Proof.
  assert (Heq : drawPerson md t person
                = flat_map (drawEquipment md t) (detectionsOf person)).
  { unfold drawPerson, detectionsOf.
    destruct (BodyParts person) as [parts|]; [|done].
    apply flat_map_nested. }
  split; [done|]. rewrite Heq. split.
  - intros d. rewrite list_elem_of_In, in_flat_map. split.
    + intros (eq & Hin & Hd). apply list_elem_of_In in Hin, Hd.
      apply drawEquipment_elem in Hd as (box & color & Hd).
      by exists eq, box, color.
    + intros (eq & box & color & Hin & Hd). exists eq.
      split; [by apply list_elem_of_In|].
      apply list_elem_of_In, drawEquipment_elem. by exists box, color.
  - clear Heq. induction (detectionsOf person) as [|eq l IH]; cbn; [done|].
    rewrite length_app.
    assert (length (drawEquipment md t eq) <= 1)%nat; [|lia].
    unfold drawEquipment. destruct (eq_BoundingBox eq); [|cbn; lia].
    destruct (equipmentStatus _ _); cbn; lia.
Qed.

(** X10: what the results table shows for a PPE category, after the
    server's [getStatus] and the client's re-classification at threshold
    [t]: with [c] the rounded confidence of the first detection of the type
    (a number), [Indeterminate] when [c < t] and [Detected] otherwise, both
    with confidence [c]; without such a detection, [NotDetected] with 0. *)
Theorem shown_status (bodyParts : list BodyPart) (type : EquipmentType)
    (t : JS.number) :
  (forall d v,
     List.find (hasType type) (flat_map EquipmentDetections bodyParts)
     = Some d ->
     eq_Confidence d = JS.Fin v ->
     let c := JS.of_Z (Qfloor (v + (1 # 2))) in
     reclassifyItem t (getStatus bodyParts type)
     = {| status := if JS.lt c t then Indeterminate else Detected;
          confidence := c |}) /\
  (List.find (hasType type) (flat_map EquipmentDetections bodyParts) = None ->
   reclassifyItem t (getStatus bodyParts type)
   = {| status := NotDetected; confidence := JS.of_Z 0 |}).
Proof.
  rewrite getStatus_first_match. split.
  - intros d v -> Hv c. unfold reclassifyItem.
    cbn [status confidence]. rewrite Hv.
    change (JS.Math_round (JS.Fin v)) with c.
    by destruct (JS.lt c t).
  - intros ->. unfold reclassifyItem. cbn. by rewrite andb_false_r.
Qed.

Lemma shown_status_witness :
  reclassifyItem (JS.of_Z 95)
    (getStatus (default [] (BodyParts alice)) HEAD_COVER)
  = {| status := Indeterminate; confidence := JS.of_Z 90 |} /\
  reclassifyItem (JS.of_Z 95)
    (getStatus (default [] (BodyParts alice)) FACE_COVER)
  = {| status := NotDetected; confidence := JS.of_Z 0 |}.
Proof.
  destruct (shown_status (default [] (BodyParts alice)) HEAD_COVER
              (JS.of_Z 95)) as [Hfound _].
  destruct (shown_status (default [] (BodyParts alice)) FACE_COVER
              (JS.of_Z 95)) as [_ Hnone].
  split.
  - exact (Hfound _ (452 # 5) eq_refl eq_refl).
  - exact (Hnone eq_refl).
Defined.

(** X11: for a request built by the client with threshold [n], a detection
    whose rounded confidence [c] satisfies [80 <= c < n] is painted green by
    the server, which works at threshold 80, while the client's table shows
    it as [Indeterminate]. *)
Theorem picture_and_table_disagree (image : File) (n : Z)
    (storedPath : string) (md : ImageMetadata) (type : EquipmentType)
    (box : BoundingBox) (v : Q) :
  let req := upload_single storedPath (createFormData image n) in
  let c := Qfloor (v + (1 # 2)) in
  80 <= c -> c < n ->
  drawEquipment md (confidenceThresholdOf req)
    {| eq_Type := type; eq_Confidence := JS.Fin v;
       eq_BoundingBox := Some box |}
  = [ {| d_color := "#00FF00"; d_rect := equipmentRect box md |} ] /\
  reclassifyItem (JS.of_Z n)
    {| status := Detected; confidence := JS.Math_round (JS.Fin v) |}
  = {| status := Indeterminate; confidence := JS.of_Z c |}.
Proof.
  intros req c Hlo Hhi. split.
  - unfold drawEquipment. cbn [eq_BoundingBox eq_Confidence].
    assert (confidenceThresholdOf req = JS.of_Z 80) as ->.
    { unfold confidenceThresholdOf, JS.or_else, req.
      by rewrite createFormData_field_unread. }
    assert (equipmentStatus (JS.Fin v) (JS.of_Z 80) = Detected) as ->; [|done].
    unfold equipmentStatus, JS.Math_round, JS.of_Z. fold c.
    assert (JS.ge (JS.Fin (inject_Z c)) (JS.Fin (inject_Z 80)) = true) as ->;
      [|done].
    apply ge_Fin. by rewrite <- Zle_Qle.
  - unfold reclassifyItem, JS.Math_round, JS.of_Z. cbn [confidence status].
    fold c.
    assert (JS.lt (JS.Fin (inject_Z c)) (JS.Fin (inject_Z n)) = true) as ->;
      [|done].
    apply lt_Fin. by rewrite <- Zlt_Qlt.
Qed.

Lemma picture_and_table_disagree_witness :
  let req :=
    upload_single "uploads/3f2a"
      (createFormData {| f_name := "site.png"; f_type := "image/png";
                         f_size := 2048 |} 95) in
  let box := sampleBox (3 # 8) (1 # 4) (1 # 8) (1 # 8) in
  drawEquipment sampleMetadata (confidenceThresholdOf req)
    {| eq_Type := HEAD_COVER; eq_Confidence := JS.Fin (452 # 5);
       eq_BoundingBox := Some box |}
  = [ {| d_color := "#00FF00";
         d_rect := equipmentRect box sampleMetadata |} ] /\
  reclassifyItem (JS.of_Z 95)
    {| status := Detected;
       confidence := JS.Math_round (JS.Fin (452 # 5)) |}
  = {| status := Indeterminate; confidence := JS.of_Z 90 |}.
Proof.
  apply (picture_and_table_disagree
           {| f_name := "site.png"; f_type := "image/png"; f_size := 2048 |}
           95 "uploads/3f2a" sampleMetadata HEAD_COVER
           (sampleBox (3 # 8) (1 # 4) (1 # 8) (1 # 8)) (452 # 5));
    vm_compute; [discriminate|reflexivity].
Defined.

End Display.

(** ** The threshold field, when it is read *)

Section ThresholdField.

(** X12: a request that does carry a [confidenceThreshold] field holding
    the decimal text of an integer from 1 to 100 is processed with exactly
    that threshold. *)
Theorem confidenceThreshold_of_decimal (req : Request) (n : Z) :
  1 <= n <= 100 ->
  body req !! "confidenceThreshold" = Some (pretty n) ->
  confidenceThresholdOf req = JS.of_Z n.
Proof.
  intros Hn Hfield. unfold confidenceThresholdOf, parseFloat_field.
  rewrite Hfield. cbn [default].
  assert (Hk : exists k : nat, (k < 100)%nat /\ n = Z.of_nat k + 1).
  { exists (Z.to_nat (n - 1)). lia. }
  destruct Hk as (k & Hk & ->). clear Hn Hfield.
  do 100 (destruct k as [|k]; [vm_compute; reflexivity|]).
  lia.
Qed.

Lemma confidenceThreshold_of_decimal_witness :
  confidenceThresholdOf
    {| file := Some (sampleUpload "image/png");
       body := {[ "confidenceThreshold" := "95" ]} |}
  = JS.of_Z 95.
Proof.
  apply (confidenceThreshold_of_decimal _ 95); [lia|reflexivity].
Defined.

End ThresholdField.

(** ** Exactness of [cleanupFiles] *)

Section CleanupExact.


End CleanupExact.

(** ** The page *)

Section PageFacts.

Context (fileToBase64 : File -> option string)
  (detectPPE : FormData -> ApiOutcome).

Lemma validateImageFile_Valid (file : File) :
  validateImageFile file = Valid
  <-> f_type file ∈ allowedTypes /\ f_size file <= maxSize.
Proof.
  unfold validateImageFile.
  destruct (decide (f_type file ∈ allowedTypes)) as [Hin|Hnin].
  - rewrite bool_decide_true by done. cbn.
    destruct (maxSize <? f_size file) eqn:E.
    + apply Z.ltb_lt in E. split; [done|]. intros [_ H]. lia.
    + apply Z.ltb_ge in E. done.
  - rewrite bool_decide_false by done. cbn. split; [done|]. by intros [H _].
Qed.

Lemma processFileUpload_keeps_valid (file : File) (u : ClientState) :
  (forall f, uploadedFile u = Some f -> validateImageFile f = Valid) ->
  forall f, uploadedFile (processFileUpload fileToBase64 file u) = Some f ->
            validateImageFile f = Valid.
Proof.
  intros Hu f. unfold processFileUpload.
  destruct (validateImageFile file) eqn:Hv; cbn; [|by apply Hu].
  destruct (fileToBase64 file); cbn; [|by apply Hu].
  by intros [= <-].
Qed.

Lemma processImage_sends (st : AppState) :
  uploadedFile (upload (fst (processImage detectPPE st)))
  = uploadedFile (upload st) /\
  app_confidence (fst (processImage detectPPE st)) = app_confidence st /\
  forall fd,
    snd (processImage detectPPE st) = Some fd ->
    exists f, uploadedFile (upload st) = Some f /\
              fd = createFormData f (app_confidence st).
Proof.
  unfold processImage.
  destruct (uploadedFile (upload st)) as [f|] eqn:Hf; [|done].
  destruct (nonEmpty (uploadedImage (upload st))); [|done].
  destruct (isConnected st) as [[|]|]; [|done..].
  cbn [fst snd]. split; [|split].
  - by destruct (detectPPE _) as [[|] [rs|] err|msg|].
  - by destruct (detectPPE _) as [[|] [rs|] err|msg|].
  - intros fd [= <-]. by exists f.
Qed.

Lemma pageStep_OK (acc : AppState * list FormData) (ev : PageEvent) :
  pageOK acc -> pageOK (pageStep fileToBase64 detectPPE acc ev).
Proof.
  destruct acc as [st sent]. intros (Hfile & Hconf & Hsent).
  unfold pageOK in *. cbn [fst snd] in *.
  destruct ev as [file|dropped| | |outcome|]; cbn [pageStep].
  - destruct file as [f|]; cbn [handleImageUpload fst snd]; [|done].
    split; [|done]. by apply processFileUpload_keeps_valid.
  - unfold handleDrop. destruct dropped as [|f dropped]; [done|].
    destruct (bool_decide _); cbn [fst snd]; [|done].
    split; [|done]. by apply processFileUpload_keeps_valid.
  - cbn. split; [done|]. split; [|done].
    unfold increaseConfidence. split; [lia|].
    destruct Hconf as [Hr Hm].
    destruct (Z.min_spec 95 (app_confidence st + 5)) as [[_ ->]|[_ ->]];
      [done|].
    rewrite Z.add_mod by lia. by rewrite Hm.
  - cbn. split; [done|]. split; [|done].
    unfold decreaseConfidence. split; [lia|].
    destruct Hconf as [Hr Hm].
    destruct (Z.max_spec 50 (app_confidence st - 5)) as [[_ ->]|[_ ->]];
      [|done].
    rewrite Zminus_mod by lia. by rewrite Hm.
  - by destruct outcome.
  - destruct (processImage_sends st) as (Hup & Hc & Hfd).
    destruct (processImage detectPPE st) as [st' [fd|]]; cbn [fst snd] in *.
    + rewrite Hup, Hc. split; [done|]. split; [done|].
      apply Forall_app. split; [done|]. constructor; [|done].
      destruct (Hfd fd eq_refl) as (f & Hf & ->). cbn [fd_image fd_fields].
      split; [by apply Hfile|]. exists (app_confidence st).
      by destruct Hconf.
    + by rewrite Hup, Hc.
Qed.

(** X14: whatever the user selects or drops, however the arrow buttons are
    clicked and whatever the server answers, every form sent by the page
    carries a file of type JPEG or PNG of at most 10 MiB and a
    [confidence_threshold] field holding one of 50, 55, ..., 95. *)
Theorem page_sends_valid_forms (events : list PageEvent) (fd : FormData) :
  fd ∈ snd (pageRun fileToBase64 detectPPE events) ->
  (f_type (fd_image fd) ∈ allowedTypes /\ f_size (fd_image fd) <= 10485760) /\
  exists c, 50 <= c <= 95 /\ c mod 5 = 0 /\
            fd_fields fd = [("confidence_threshold", pretty c)].
Proof.
  assert (Hrun : forall acc,
             pageOK acc ->
             pageOK (foldl (pageStep fileToBase64 detectPPE) acc events)).
  { induction events as [|ev events IH]; intros acc Hacc; [done|].
    cbn. apply IH. by apply pageStep_OK. }
  intros Hin. destruct (Hrun (initialApp, [])) as (_ & _ & Hsent).
  { split; [done|]. split; [done|]. constructor. }
  eapply Forall_forall in Hsent as [Hv Hc]; [|exact Hin].
  split; [|done]. by apply validateImageFile_Valid.
Qed.

End PageFacts.

Lemma page_sends_valid_forms_witness :
  let png := {| f_name := "site.png"; f_type := "image/png";
                f_size := 2048 |} in
  let events := [HealthChecked Healthy; SelectFile (Some png); ClickUp;
                 ClickGo] in
  let reader := fun _ : File => Some "data:image/png;base64,iVBORw0KGgo=" in
  let api := fun _ : FormData => ApiFailed "Network error: Failed to fetch" in
  createFormData png 85 ∈ snd (pageRun reader api events) /\
  (f_type png ∈ allowedTypes /\ f_size png <= 10485760).
Proof.
  intros png events reader api.
  assert (Hin : createFormData png 85 ∈ snd (pageRun reader api events)).
  { vm_compute. by left. }
  split; [exact Hin|].
  exact (proj1 (page_sends_valid_forms reader api events
                  (createFormData png 85) Hin)).
Defined.

(** ** The client's re-classification *)

Section Reclassification.

Lemma reclassifyItem_settled (t : JS.number) (item : StatusRecord) :
  itemSettled t (reclassifyItem t item).
Proof.
  unfold itemSettled, reclassifyItem.
  destruct (JS.lt (confidence item) t) eqn:Hlt; cbn.
  - destruct (bool_decide (status item = Detected)) eqn:Hd; cbn; [done|].
    apply bool_decide_eq_false in Hd. done.
  - by intros _.
Qed.

Lemma reclassifyItem_fixed (t : JS.number) (item : StatusRecord) :
  itemSettled t item -> reclassifyItem t item = item.
Proof.
  unfold itemSettled, reclassifyItem. intros H.
  destruct (JS.lt (confidence item) t) eqn:Hlt; [|done]. cbn.
  destruct (bool_decide (status item = Detected)) eqn:Hd; [|done].
  apply bool_decide_eq_true in Hd. specialize (H Hd). congruence.
Qed.

(** X15: [processDetectionResults] keeps the records, their order and
    their ids; afterwards no PPE item is [Detected] with a confidence below
    the threshold; records that are already so are returned unchanged, so
    applying it twice is the same as applying it once. *)
Theorem processDetectionResults_settles (rs : list PersonResult)
    (t : JS.number) :
  personId <$> processDetectionResults rs t = personId <$> rs /\
  image <$> processDetectionResults rs t = image <$> rs /\
  Forall (recordSettled t) (processDetectionResults rs t) /\
  (Forall (recordSettled t) rs -> processDetectionResults rs t = rs) /\
  processDetectionResults (processDetectionResults rs t) t
  = processDetectionResults rs t.
Proof.
  assert (Hsettled : Forall (recordSettled t) (processDetectionResults rs t)).
  { unfold processDetectionResults. apply Forall_forall. intros r Hr.
    apply list_elem_of_In, in_map_iff in Hr as (r0 & <- & _).
    repeat split; apply reclassifyItem_settled. }
  assert (Hfixed : forall l, Forall (recordSettled t) l ->
                             processDetectionResults l t = l).
  { intros l Hl. unfold processDetectionResults.
    induction Hl as [|r l (H1 & H2 & H3 & H4) _ IH]; [done|].
    cbn. rewrite IH. f_equal. unfold processDetectionResult.
    rewrite !reclassifyItem_fixed by done. by destruct r. }
  split; [|split; [|split; [done|split; [by apply Hfixed|by apply Hfixed]]]].
  - clear. unfold processDetectionResults.
    induction rs as [|r rs IH]; [done|]. cbn. by f_equal.
  - clear. unfold processDetectionResults.
    induction rs as [|r rs IH]; [done|]. cbn. by f_equal.
Qed.

End Reclassification.

(** ** Presence of equipment and the effect of the threshold *)

Section Presence.

Lemma find_Some_iff {A} (f : A -> bool) (l : list A) :
  is_Some (List.find f l) <-> exists a, a ∈ l /\ f a = true.
Proof.
  split.
  - intros [a Ha]. apply find_some in Ha as [Hin Hf].
    exists a. split; [by apply list_elem_of_In|done].
  - intros (a & Hin & Hf). destruct (List.find f l) as [b|] eqn:E; [by eexists|].
    apply list_elem_of_In in Hin.
    pose proof (find_none f l E a Hin). congruence.
Qed.

(** X16: a category is reported [Detected] exactly when some body part of
    the person carries a detection of that type, whichever body part it is;
    otherwise it is [NotDetected] with confidence 0.  In particular one
    covered hand makes both hand fields [Detected]. *)
Theorem getStatus_Detected_iff (bodyParts : list BodyPart)
    (type : EquipmentType) :
  (status (getStatus bodyParts type) = Detected
   <-> exists part d,
         part ∈ bodyParts /\ d ∈ EquipmentDetections part /\
         eq_Type d = type) /\
  (status (getStatus bodyParts type) = Detected \/
   getStatus bodyParts type
   = {| status := NotDetected; confidence := JS.of_Z 0 |}).
Proof.
  rewrite getStatus_first_match.
  pose proof (find_Some_iff (hasType type)
                (flat_map EquipmentDetections bodyParts)) as Hfind.
  assert (Hex : (exists a, a ∈ flat_map EquipmentDetections bodyParts /\
                           hasType type a = true)
                <-> exists part d,
                      part ∈ bodyParts /\ d ∈ EquipmentDetections part /\
                      eq_Type d = type).
  { split.
    - intros (d & Hin & Hd). apply list_elem_of_In, in_flat_map in Hin
        as (part & Hp & Hdp).
      exists part, d. split; [by apply list_elem_of_In|].
      split; [by apply list_elem_of_In|].
      by apply bool_decide_eq_true in Hd.
    - intros (part & d & Hp & Hd & Ht). exists d. split.
      + apply list_elem_of_In, in_flat_map. exists part.
        split; by apply list_elem_of_In.
      + by apply bool_decide_eq_true. }
  rewrite <- Hex, <- Hfind.
  destruct (List.find _ _) as [d|]; cbn.
  - split; [|by left]. split; [by eexists|done].
  - split; [|by right]. split; [done|]. by intros [? ?].
Qed.

(** X17: raising the threshold never improves the status drawn for a
    detection: what is [Detected] at the higher threshold is [Detected] at
    the lower one, and what is [Indeterminate] or [NotDetected] at the
    lower threshold stays so at the higher one. *)
Theorem equipmentStatus_monotone (v t1 t2 : Q) :
  (t1 <= t2)%Q ->
  (equipmentStatus (JS.Fin v) (JS.Fin t2) = Detected ->
   equipmentStatus (JS.Fin v) (JS.Fin t1) = Detected) /\
  (equipmentStatus (JS.Fin v) (JS.Fin t1) = Indeterminate ->
   equipmentStatus (JS.Fin v) (JS.Fin t2) = Indeterminate) /\
  (equipmentStatus (JS.Fin v) (JS.Fin t1) = NotDetected ->
   equipmentStatus (JS.Fin v) (JS.Fin t2) = NotDetected).
Proof.
  intros Hle.
  destruct (equipmentStatus_cases v t1) as [[H1 E1]|[(H1&H1'&E1)|(H1&H1'&E1)]];
    destruct (equipmentStatus_cases v t2)
      as [[H2 E2]|[(H2&H2'&E2)|(H2&H2'&E2)]];
    rewrite E1, E2; repeat split; try done; intros _; exfalso.
  all: try (apply (Qlt_not_le _ _ H1); by apply (Qle_trans _ t2)).
  all: try (by apply (Qlt_not_le _ _ H1')).
  all: try (by apply (Qlt_not_le _ _ H2')).
Qed.

Lemma equipmentStatus_monotone_witness :
  (80 <= 95)%Q /\
  equipmentStatus (JS.Fin 60) (JS.Fin 80) = Indeterminate /\
  equipmentStatus (JS.Fin 60) (JS.Fin 95) = Indeterminate.
Proof.
  split; [discriminate|]. split; [reflexivity|].
  apply (equipmentStatus_monotone 60 80 95); [discriminate|reflexivity].
Defined.

End Presence.

Lemma processDetectionResults_settles_witness :
  let shown := processDetectionResults [personResult 0 alice ""] (JS.of_Z 95) in
  Forall (recordSettled (JS.of_Z 95)) shown /\
  processDetectionResults shown (JS.of_Z 95) = shown.
Proof.
  intros shown.
  destruct (processDetectionResults_settles [personResult 0 alice ""]
              (JS.of_Z 95)) as (_ & _ & Hsettled & _ & _).
  destruct (processDetectionResults_settles shown (JS.of_Z 95))
    as (_ & _ & _ & Hfixed & _).
  split; [exact Hsettled|]. exact (Hfixed Hsettled).
Defined.
